(** * VaultFeed: the feed and article endpoints of [app.py]

    A shallow embedding of the two request handlers of [src/app.py],
    [news_feed] ([GET /api/news]) and [fetch_article] ([GET /api/article]),
    and the properties of them that the specification states.

    Conventions of the model.
    - A Python [str] is a list of Unicode code points ([pystr]); [len],
      slicing, [strip], [split] and [startswith] are the list operations.
    - What the third-party libraries answer during one request (feedparser,
      requests + newspaper, readability + BeautifulSoup) is an input of the
      handler: a record of oracles.  An oracle either returns the value the
      handler reads or raises.
    - The body of [fetch_article] runs in a monad whose local variables
      survive an exception, as Python locals do.
    - The exceptions modelled are subclasses of [Exception]; the handler's own
      import of [newspaper] (line 101) is taken to resolve. *)

From Stdlib Require Import List ZArith NArith Bool Ascii Lia.
From Stdlib Require String.
Import ListNotations String.StringSyntax.
Local Open Scope string_scope.

Set Implicit Arguments.
Set Warnings "-register-all,-abstract-large-number".

(* ================================================================== *)
(** * Python strings *)
(* ================================================================== *)

Module PyStr.

Local Open Scope N_scope.

(** A Python [str]: its code points, in order. *)
Definition pystr := list N.

(** An ASCII literal of the source as a [pystr]. *)
Definition lit (s : String.string) : pystr :=
  map N_of_ascii (String.list_ascii_of_string s).

(** Truthiness of a string: [bool(s)]. *)
Definition truthy (s : pystr) : bool :=
  match s with [] => false | _ :: _ => true end.

(** [a or b] on strings. *)
Definition py_or (a b : pystr) : pystr := if truthy a then a else b.

(** [s.startswith(p)]. *)
Fixpoint startswith (p s : pystr) : bool :=
  match p, s with
  | [], _ => true
  | _ :: _, [] => false
  | x :: p', y :: s' => N.eqb x y && startswith p' s'
  end.

(** [c.isspace()]: the code points CPython's [str.strip()] removes. *)
Definition isspace (c : N) : bool :=
  ((9 <=? c) && (c <=? 13)) || ((28 <=? c) && (c <=? 32))
  || (c =? 133) || (c =? 160) || (c =? 5760)
  || ((8192 <=? c) && (c <=? 8202))
  || (c =? 8232) || (c =? 8233) || (c =? 8239) || (c =? 8287)
  || (c =? 12288).

(** [s.lstrip()]. *)
Fixpoint lstrip (s : pystr) : pystr :=
  match s with
  | [] => []
  | c :: s' => if isspace c then lstrip s' else s
  end.

(** [s.rstrip()]. *)
Definition rstrip (s : pystr) : pystr := rev (lstrip (rev s)).

(** [s.strip()]. *)
Definition strip (s : pystr) : pystr := rstrip (lstrip s).

(** [s[:n]] for a non-negative constant [n]. *)
Definition take (n : nat) (s : pystr) : pystr := firstn n s.

(** [s.split(sep)] for a non-empty separator: left to right, matches do not
    overlap, and the result always has at least one piece.  [skip] counts the
    code points of a separator just matched that are still to be passed;
    [cur] is the current piece, reversed. *)
Fixpoint split_from (sep : pystr) (skip : nat) (cur : pystr) (s : pystr)
  : list pystr :=
  match s with
  | [] => [rev cur]
  | c :: s' =>
      match skip with
      | S k => split_from sep k cur s'
      | O =>
          if startswith sep s
          then rev cur :: split_from sep (length sep - 1)%nat [] s'
          else split_from sep 0 (c :: cur) s'
      end
  end.

Definition split (sep s : pystr) : list pystr := split_from sep 0 [] s.

(** ["".join(l)]. *)
Definition join (l : list pystr) : pystr := concat l.

(** The whitespace [int()] passes over around a literal: the ASCII
    whitespace 9-13 and 32, and the whitespace beyond ASCII, which [int()]
    first turns into spaces.  U+001C to U+001F are whitespace for
    [str.strip()] and are not for [int()]. *)
Definition int_space (c : N) : bool :=
  isspace c && negb ((28 <=? c) && (c <=? 31)).

Fixpoint int_lstrip (s : pystr) : pystr :=
  match s with
  | [] => []
  | c :: s' => if int_space c then int_lstrip s' else s
  end.

(** The literal [int()] reads: the string without that whitespace at its
    ends. *)
Definition int_strip (s : pystr) : pystr :=
  rev (int_lstrip (rev (int_lstrip s))).

(** The digits zero of the decimal digits of Unicode 14.0 (the table of
    CPython 3.11); each is followed by its digits one to nine. *)
Definition decimal_zeros : list N :=
  [48; 1632; 1776; 1984; 2406; 2534; 2662; 2790; 2918; 3046; 3174; 3302;
   3430; 3558; 3664; 3792; 3872; 4160; 4240; 6112; 6160; 6470; 6608; 6784;
   6800; 6992; 7088; 7232; 7248; 42528; 43216; 43264; 43472; 43504; 43600;
   44016; 65296; 66720; 68912; 69734; 69872; 69942; 70096; 70384; 70736;
   70864; 71248; 71360; 71472; 71904; 72016; 72784; 73040; 73120; 92768;
   92864; 93008; 120782; 120792; 120802; 120812; 120822; 123200; 123632;
   125264; 130032].

(** The decimal value of a code point: an ASCII digit, or beyond ASCII a
    decimal digit of any script, which [int()] turns into the ASCII digit
    of the same value. *)
Definition digit_value (c : N) : option Z :=
  if (48 <=? c) && (c <=? 57) then Some (Z.of_N c - 48)%Z
  else if c <? 127 then None
  else option_map (fun z => Z.of_N (c - z))
                  (find (fun z => (z <=? c) && (c <=? z + 9)) decimal_zeros).

(** The digits of an integer literal: at least one digit, and underscores
    only singly between two digits.  [after_digit] tells that the previous
    code point was a digit. *)
Fixpoint parse_digits (acc : Z) (after_digit : bool) (s : pystr) : option Z :=
  match s with
  | [] => if after_digit then Some acc else None
  | c :: s' =>
      match digit_value c with
      | Some d => parse_digits (10 * acc + d)%Z true s'
      | None =>
          if (c =? 95) && after_digit then
            match s' with
            | [] => None
            | _ :: _ => parse_digits acc false s'
            end
          else None
      end
  end.

(** The number of digits of a literal, underscores not counted. *)
Definition digit_count (s : pystr) : N :=
  N.of_nat (length (filter (fun c => match digit_value c with
                                     | Some _ => true
                                     | None => false
                                     end) s)).

(** The interpreter's default limit on the digits of a decimal literal. *)
Definition max_str_digits : N := 4300.

(** [int(s)] for a string, base 10: the whitespace around the literal is
    passed over, one ASCII sign is allowed, then come the digits, at most
    [max_str_digits] of them.  [None] is [ValueError]. *)
Definition py_int (s : pystr) : option Z :=
  match int_strip s with
  | [] => None
  | c :: r =>
      let digits := if (c =? 45) || (c =? 43) then r else c :: r in
      if max_str_digits <? digit_count digits then None
      else if (c =? 45) then option_map Z.opp (parse_digits 0 false digits)
      else parse_digits 0 false digits
  end.

(** [l[:n]] for any integer [n]: a negative [n] counts from the end. *)
Definition slice_to (A : Type) (l : list A) (n : Z) : list A :=
  if (0 <=? n)%Z then firstn (Z.to_nat n) l
  else firstn (Z.to_nat (Z.of_nat (length l) + n)) l.

End PyStr.

Import PyStr.
Local Open Scope N_scope.

(* ================================================================== *)
(** * Responses *)
(* ================================================================== *)

(** The JSON values [jsonify] is given.  An object lists its fields in the
    order the handler writes them; the order in which [jsonify] emits them
    is not modelled. *)
Inductive json : Type :=
| JStr (s : pystr)
| JArr (l : list json)
| JObj (fields : list (String.string * json)).

(** The exception classes the handlers meet. *)
Inductive exn_class : Type :=
| ArticleException
| RequestException
| ImportError
| ValueError
| OtherException.

(** An exception raised by a library: its class and [str(e)]. *)
Record exn : Type := mkExn { exn_cls : exn_class; exn_str : pystr }.

(** What a view function does: it returns a response with a status and a
    JSON body, or an exception leaves it. *)
Inductive outcome : Type :=
| Response (status : nat) (body : json)
| Unhandled (e : exn_class).

(** [obj[key]] on a JSON object. *)
Fixpoint field (key : String.string) (fields : list (String.string * json)) : option json :=
  match fields with
  | [] => None
  | (k, v) :: rest => if String.eqb k key then Some v else field key rest
  end.

Definition body_field (key : String.string) (o : outcome) : option json :=
  match o with
  | Response _ (JObj fs) => field key fs
  | _ => None
  end.

Definition status_of (o : outcome) : option nat :=
  match o with Response st _ => Some st | Unhandled _ => None end.

(** The keys of a response body, in order. *)
Definition body_keys (o : outcome) : list String.string :=
  match o with
  | Response _ (JObj fs) => map fst fs
  | _ => []
  end.

(* ================================================================== *)
(** * The feed endpoint: [news_feed] *)
(* ================================================================== *)

(** One element of [entry.content]: a dict that may hold ["value"]. *)
Record content_item : Type := mkContent { c_value : option pystr }.

(** One element of [entry.media_thumbnail] or [entry.media_content]: a dict
    that may hold ["url"]. *)
Record media_item : Type := mkMedia { m_url : option pystr }.

(** A feed entry as the handler sees it through [getattr] and [hasattr]:
    [None] is an attribute the entry does not have. *)
Record entry : Type := mkEntry {
  e_title : option pystr;
  e_link : option pystr;
  e_published : option pystr;
  e_updated : option pystr;
  e_created : option pystr;
  e_content : option (list content_item);
  e_summary : option pystr;
  e_description : option pystr;
  e_media_thumbnail : option (list media_item);
  e_media_content : option (list media_item);
  e_author : option pystr
}.

(** The result of [feedparser.parse]. *)
Record parsed_feed : Type := mkParsed {
  bozo : bool;
  bozo_exception : option pystr;   (* [str] of it, when the attribute exists *)
  entries : list entry;
  parsed_feed_title : option pystr (* [parsed.feed.title] *)
}.

(** What the handler's surroundings answer during one feed request. *)
Record feed_world : Type := mkFeedWorld {
  NEWS_RSS_URL : option pystr;                    (* [os.environ] *)
  feedparser_parse : pystr -> exn + parsed_feed   (* [inl]: it raised *)
}.

(** The query string of a feed request: [None] is a parameter not given. *)
Record feed_request : Type := mkFeedRequest {
  fr_url : option pystr;
  fr_limit : option pystr
}.

Definition or_default (o : option pystr) (d : pystr) : pystr :=
  match o with Some s => s | None => d end.

(** Lines 26-28. *)
Definition feed_url (w : feed_world) (req : feed_request) : pystr :=
  match fr_url req with
  | Some (c :: u) => c :: u
  | _ => or_default (NEWS_RSS_URL w) (lit "https://hnrss.org/frontpage")
  end.

(** Line 29: [min(int(request.args.get("limit", 20)), 50)]; [None] when
    [int] raises [ValueError]. *)
Definition limit (req : feed_request) : option Z :=
  match fr_limit req with
  | None => Some (Z.min 20 50)
  | Some s => option_map (fun n => Z.min n 50) (py_int s)
  end.

(** Lines 51-56: the first truthy one of [published], [updated],
    [created]. *)
Fixpoint first_truthy (vals : list (option pystr)) : pystr :=
  match vals with
  | [] => []
  | Some (c :: v) :: _ => c :: v
  | _ :: rest => first_truthy rest
  end.

Definition published (e : entry) : pystr :=
  first_truthy [e_published e; e_updated e; e_created e].

(** Lines 59-65. *)
Definition description (e : entry) : pystr :=
  match e_content e with
  | Some (c :: _) => take 2000 (or_default (c_value c) [])
  | _ =>
      match e_summary e with
      | Some s => take 2000 (py_or s [])
      | None =>
          match e_description e with
          | Some d => take 2000 (py_or d [])
          | None => []
          end
      end
  end.

(** Lines 68-72. *)
Definition thumbnail (e : entry) : pystr :=
  match e_media_thumbnail e with
  | Some (m :: _) => or_default (m_url m) []
  | _ =>
      match e_media_content e with
      | Some (m :: _) => or_default (m_url m) []
      | _ => []
      end
  end.

(** Lines 47-84: the item appended for one entry. *)
Definition item_of (e : entry) : json :=
  JObj [ ("title", JStr (or_default (e_title e) (lit "(no title)")));
         ("link", JStr (or_default (e_link e) []));
         ("published", JStr (published e));
         ("description", JStr (description e));
         ("thumbnail", JStr (thumbnail e));
         ("author", JStr (or_default (e_author e) [])) ].

(** Lines 45-84: the loop over [parsed.entries[:limit]]. *)
Definition items (p : parsed_feed) (lim : Z) : list json :=
  map item_of (slice_to (entries p) lim).

Definition is_nil (A : Type) (l : list A) : bool :=
  match l with [] => true | _ :: _ => false end.

(** [news_feed], lines 19-86. *)
Definition news_feed (w : feed_world) (req : feed_request) : outcome :=
  let url := feed_url w req in
  match limit req with
  | None => Unhandled ValueError
  | Some lim =>
      match feedparser_parse w url with
      | inl e => Response 502 (JObj [("error", JStr (exn_str e))])
      | inr parsed =>
          if bozo parsed && is_nil (entries parsed) then
            let err := or_default (bozo_exception parsed)
                                  (lit "Unknown parse error") in
            Response 502
              (JObj [("error", JStr (lit "Feed error: " ++ err))])
          else
            let feed_title := py_or (or_default (parsed_feed_title parsed) []) [] in
            Response 200
              (JObj [("items", JArr (items parsed lim));
                     ("feed_title", JStr feed_title)])
      end
  end.

(** The number of items of a feed response, if it is one. *)
Definition item_count (o : outcome) : option nat :=
  match body_field "items" o with
  | Some (JArr l) => Some (length l)
  | _ => None
  end.

(* ================================================================== *)
(** * The article endpoint: [fetch_article] *)
(* ================================================================== *)

(** ** What the libraries answer *)

(** A [datetime], for the one thing the handler does with it:
    [isoformat()] returns a string, or raises (as it does for a time zone
    whose UTC offset is out of range). *)
Record datetime : Type := mkDatetime { isoformat : exn_class + pystr }.

(** The attributes the handler reads of a parsed [newspaper.Article];
    [None] is Python's [None]. *)
Record Article : Type := mkArticle {
  art_text : option pystr;
  art_title : option pystr;
  art_authors : option (list pystr);
  art_publish_date : option datetime;
  art_top_image : option pystr
}.

(** The BeautifulSoup tree of the readable fragment, after the script,
    style, iframe, object and embed elements are decomposed (lines 150-152),
    for what the handler asks of it. *)
Record soup : Type := mkSoup {
  get_text : pystr;              (* [soup.get_text(separator="\n\n")] *)
  soup_str : pystr;              (* [str(soup)] *)
  imgs : list (option pystr)     (* the img elements in document order,
                                    each with its src attribute if any *)
}.

(** [soup.find("img", src=True)], then [img["src"]]: the first img element
    that has a src attribute. *)
Fixpoint find_img_src (l : list (option pystr)) : option pystr :=
  match l with
  | [] => None
  | Some src :: _ => Some src
  | None :: rest => find_img_src rest
  end.

(** What the handler's surroundings answer during one article request.
    [newspaper_parse url] stands for lines 124-126 (the fetch, [set_html],
    [parse]); [readability_soup url] for lines 141-152 (the imports, the
    second fetch, [Document], [summary], [short_title], the soup and its
    clean-up): the guessed title and the tree. *)
Record article_world : Type := mkArticleWorld {
  newspaper_parse : pystr -> exn_class + Article;
  readability_soup : pystr -> exn_class + (option pystr * soup)
}.

(** The query string of an article request. *)
Record article_request : Type := mkArticleRequest { ar_url : option pystr }.

(** ** Local variables and effects *)

(** The local variables of lines 115-120. *)
Record locals : Type := mkLocals {
  text : pystr;
  html_content : pystr;
  title : pystr;
  authors : list pystr;
  publish_date : pystr;
  top_image : pystr
}.

Definition init_locals : locals := mkLocals [] [] [] [] [] [].

Definition set_text (v : pystr) (s : locals) : locals :=
  mkLocals v (html_content s) (title s) (authors s) (publish_date s) (top_image s).
Definition set_html_content (v : pystr) (s : locals) : locals :=
  mkLocals (text s) v (title s) (authors s) (publish_date s) (top_image s).
Definition set_title (v : pystr) (s : locals) : locals :=
  mkLocals (text s) (html_content s) v (authors s) (publish_date s) (top_image s).
Definition set_authors (v : list pystr) (s : locals) : locals :=
  mkLocals (text s) (html_content s) (title s) v (publish_date s) (top_image s).
Definition set_publish_date (v : pystr) (s : locals) : locals :=
  mkLocals (text s) (html_content s) (title s) (authors s) v (top_image s).
Definition set_top_image (v : pystr) (s : locals) : locals :=
  mkLocals (text s) (html_content s) (title s) (authors s) (publish_date s) v.

(** The strategies the handler starts, as they appear to the outside. *)
Inductive strategy : Type := Primary | Fallback.

(** The state threaded through the handler: the locals and the strategies
    started so far, oldest first. *)
Record store : Type := mkStore { vars : locals; started : list strategy }.

(** A computation over the store that returns or raises.  The store is
    returned in both cases: an exception does not undo assignments. *)
Definition M (A : Type) : Type := store -> (exn_class + A) * store.

Definition ret (A : Type) (a : A) : M A := fun st => (inr a, st).

Definition bind (A B : Type) (m : M A) (k : A -> M B) : M B :=
  fun st =>
    match m st with
    | (inr a, st') => k a st'
    | (inl e, st') => (inl e, st')
    end.

Notation "x <- m ;; k" := (bind m (fun x => k))
  (at level 61, m at next level, right associativity).
Notation "m ;; k" := (bind m (fun _ => k))
  (at level 61, right associativity).

(** Read the locals. *)
Definition get : M locals := fun st => (inr (vars st), st).

(** An assignment to a local. *)
Definition assign (f : locals -> locals) : M unit :=
  fun st => (inr tt, mkStore (f (vars st)) (started st)).

(** A call into a library for strategy [who]: it is recorded, and returns
    or raises what the library answers. *)
Definition call (A : Type) (who : strategy) (answer : exn_class + A) : M A :=
  fun st => (answer, mkStore (vars st) (started st ++ [who])).

(** A method call on a value already obtained. *)
Definition method (A : Type) (answer : exn_class + A) : M A :=
  fun st => (answer, st).

Definition pass : M unit := ret tt.

(** [try: body  except C1: h1  except C2: h2 ...]: the first clause whose
    class test accepts the exception handles it; with none, it goes on. *)
Fixpoint handle (clauses : list ((exn_class -> bool) * M unit))
                (e : exn_class) : M unit :=
  match clauses with
  | [] => fun st => (inl e, st)
  | (accepts, handler) :: rest =>
      if accepts e then handler else handle rest e
  end.

Definition try_except (body : M unit)
                      (clauses : list ((exn_class -> bool) * M unit)) : M unit :=
  fun st =>
    match body st with
    | (inr tt, st') => (inr tt, st')
    | (inl e, st') => handle clauses e st'
    end.

(** The class tests of the [except] clauses. *)
Definition isinstance_ArticleException_or_RequestException (e : exn_class) : bool :=
  match e with ArticleException | RequestException => true | _ => false end.
Definition isinstance_ImportError (e : exn_class) : bool :=
  match e with ImportError => true | _ => false end.
Definition isinstance_Exception (e : exn_class) : bool := true.

(** [v or d] for a value that may be [None]. *)
Definition or_else (A : Type) (v : option (list A)) (d : list A) : list A :=
  match v with
  | Some (x :: l) => x :: l
  | _ => d
  end.

(** ** The handler *)

(** The separator ["\n\n"]. *)
Definition blank_line : pystr := [10; 10].

(** Lines 124-132: the body of the first [try]. *)
Definition primary_body (w : article_world) (url : pystr) : M unit :=
  article <- call Primary (newspaper_parse w url) ;;
  assign (set_text (strip (or_else (art_text article) []))) ;;
  assign (set_title (or_else (art_title article) [])) ;;
  assign (set_authors (or_else (art_authors article) [])) ;;
  iso <- match art_publish_date article with
         | Some d => method (isoformat d)
         | None => ret []
         end ;;
  assign (set_publish_date iso) ;;
  assign (set_top_image (or_else (art_top_image article) [])).

(** Lines 123-136: attempt 1. *)
Definition primary (w : article_world) (url : pystr) : M unit :=
  try_except (primary_body w url)
    [ (isinstance_ArticleException_or_RequestException, pass);
      (isinstance_Exception, pass) ].

(** Lines 162-167: adopt a lead image. *)
Definition adopt_image (sp : soup) : M unit :=
  s <- get ;;
  if truthy (top_image s) then pass
  else
    match find_img_src (imgs sp) with
    | Some src =>
        if startswith (lit "http") src then assign (set_top_image src)
        else pass
    | None => pass
    end.

(** Lines 141-167: the body of the second [try]. *)
Definition fallback_body (w : article_world) (url : pystr) : M unit :=
  r <- call Fallback (readability_soup w url) ;;
  let readable_title := fst r in
  let sp := snd r in
  let fallback_text := strip (get_text sp) in
  s <- get ;;
  if (length (text s) <? length fallback_text)%nat then
    assign (set_text fallback_text) ;;
    assign (set_html_content (soup_str sp)) ;;
    s' <- get ;;
    (if truthy (title s') then pass
     else assign (set_title (or_else readable_title []))) ;;
    adopt_image sp
  else pass.

(** Lines 139-171: attempt 2. *)
Definition fallback (w : article_world) (url : pystr) : M unit :=
  s <- get ;;
  if (length (text s) <? 100)%nat then
    try_except (fallback_body w url)
      [ (isinstance_ImportError, pass);
        (isinstance_Exception, pass) ]
  else pass.

(** Line 175: [[p.strip() for p in text.split("\n\n") if p.strip()]]. *)
Definition paragraphs (t : pystr) : list pystr :=
  map strip (filter (fun p => truthy (strip p)) (split blank_line t)).

(** [f"<p>{p}</p>"]. *)
Definition p_tag (p : pystr) : pystr := lit "<p>" ++ p ++ lit "</p>".

(** Line 176. *)
Definition html_of_paragraphs (ps : list pystr) : pystr :=
  if is_nil ps then [] else join (map p_tag ps).

(** Lines 174-176: build the HTML from the text. *)
Definition synthesize : M unit :=
  s <- get ;;
  if truthy (text s) && negb (truthy (html_content s)) then
    assign (set_html_content (html_of_paragraphs (paragraphs (text s))))
  else pass.

(** Line 103. *)
Definition url_of (req : article_request) : pystr :=
  strip (or_default (ar_url req) []).

Definition init_store : store := mkStore init_locals [].

(** Lines 115-176 from a fresh store. *)
Definition run_article (w : article_world) (url : pystr)
  : (exn_class + unit) * store :=
  (primary w url ;; fallback w url ;; synthesize) init_store.

(** Lines 178-186. *)
Definition article_json (s : locals) (url : pystr) : json :=
  JObj [ ("title", JStr (title s));
         ("authors", JArr (map JStr (authors s)));
         ("publish_date", JStr (publish_date s));
         ("top_image", JStr (top_image s));
         ("text", JStr (text s));
         ("html", JStr (html_content s));
         ("source_url", JStr url) ].

(** [fetch_article], lines 90-186. *)
Definition fetch_article (w : article_world) (req : article_request) : outcome :=
  let url := url_of req in
  if negb (truthy url) then
    Response 400 (JObj [("error", JStr (lit "url parameter is required"))])
  else
    match run_article w url with
    | (inr _, st) => Response 200 (article_json (vars st) url)
    | (inl e, _) => Unhandled e
    end.

(** ** Intermediate states, for the statements below *)

(** The store after attempt 1. *)
Definition after_primary (w : article_world) (url : pystr) : store :=
  snd (primary w url init_store).

(** The store after attempt 2, before the HTML is built. *)
Definition after_fallback (w : article_world) (url : pystr) : store :=
  snd ((primary w url ;; fallback w url) init_store).

(** The store when the handler builds its response. *)
Definition final_store (w : article_world) (url : pystr) : store :=
  snd (run_article w url).

(** The text the primary strategy leaves. *)
Definition primary_text (w : article_world) (url : pystr) : pystr :=
  text (vars (after_primary w url)).

(** The fallback's extracted text, when the fallback is asked and answers. *)
Definition fallback_text (w : article_world) (url : pystr) : option pystr :=
  match readability_soup w url with
  | inr (_, sp) => Some (strip (get_text sp))
  | inl _ => None
  end.



(* ================================================================== *)
(** * The specification's words, and sample inputs *)
(* ================================================================== *)

(** An entry with nothing but a title. *)
Definition bare_entry : entry :=
  mkEntry (Some (lit "t")) None None None None None None None None None None.

(** A well-formed feed of 52 entries, whatever the URL. *)
Definition feed_of_52 : feed_world :=
  mkFeedWorld None (fun _ => inr (mkParsed false None (repeat bare_entry 52) None)).

(** The rich content body of an entry, when the entry has one: the value of
    the first element of a non-empty [content] list (empty when that
    element holds no value). *)
Definition rich_content_body (e : entry) : option pystr :=
  match e_content e with
  | Some (c :: _) => Some (or_default (c_value c) [])
  | _ => None
  end.

(** The description source by the precedence of the specification: the
    rich content body, else the summary, else the description, else the
    empty string.  The rich content body is present when [content] is a
    non-empty list; a summary or a description is present when the entry
    has the attribute. *)
Definition description_source (e : entry) : pystr :=
  match rich_content_body e with
  | Some body => body
  | None =>
      match e_summary e with
      | Some s => s
      | None => or_default (e_description e) []
      end
  end.

(** An entry whose summary has 2001 code points and whose description
    attribute is something else. *)
Definition long_summary_entry : entry :=
  mkEntry None None None None None None
          (Some (repeat 120 2001)) (Some (lit "other")) None None None.

(** A feed that is not well-formed and still yields one entry. *)
Definition bozo_feed_of_1 : feed_world :=
  mkFeedWorld None
    (fun _ => inr (mkParsed true (Some (lit "not well-formed"))
                            [bare_entry] None)).

(** A feed that is not well-formed and yields nothing. *)
Definition bozo_feed_of_0 : feed_world :=
  mkFeedWorld None
    (fun _ => inr (mkParsed true (Some (lit "not well-formed")) [] None)).

(** The lead image by the words of the specification: the src of the first
    img element whose src begins with ["http"], elements before it being
    passed over. *)
Fixpoint first_http_img_src (l : list (option pystr)) : option pystr :=
  match l with
  | [] => None
  | Some src :: rest =>
      if startswith (lit "http") src then Some src else first_http_img_src rest
  | None :: rest => first_http_img_src rest
  end.

(** The lead image the handler takes from the fallback HTML: the src of the
    first img element that has one, when it begins with ["http"]. *)
Definition adopted_img_src (l : list (option pystr)) : option pystr :=
  match find_img_src l with
  | Some src => if startswith (lit "http") src then Some src else None
  | None => None
  end.

(** The locals an answer of the fallback leaves when its text wins (lines
    157-167). *)
Definition fallback_wins (s : locals) (r : option pystr * soup) : locals :=
  let s1 := set_html_content (soup_str (snd r))
              (set_text (strip (get_text (snd r))) s) in
  let s2 := if truthy (title s1) then s1
            else set_title (or_else (fst r) []) s1 in
  if truthy (top_image s2) then s2
  else match adopted_img_src (imgs (snd r)) with
       | Some src => set_top_image src s2
       | None => s2
       end.

(** The synthesised HTML by the words of the specification: split on blank
    lines, drop the pieces that are empty or only whitespace, wrap each
    remaining piece as it is. *)
Definition html_of_segments (t : pystr) : pystr :=
  join (map p_tag (filter (fun p => truthy (strip p)) (split blank_line t))).

(** The text, the HTML, the lead image and the echoed URL of a response. *)
Definition str_field (key : String.string) (o : outcome) : option pystr :=
  match body_field key o with
  | Some (JStr s) => Some s
  | _ => None
  end.

(** The keys of an article response. *)
Definition article_keys : list String.string :=
  ["title"; "authors"; "publish_date"; "top_image"; "text"; "html";
   "source_url"].

(** The body of the 400 response. *)
Definition url_required : json :=
  JObj [("error", JStr (lit "url parameter is required"))].

(** Nothing answers: both fetches fail. *)
Definition world_down : article_world :=
  mkArticleWorld (fun _ => inl RequestException) (fun _ => inl RequestException).

(** The primary strategy fails; the fallback finds a short text and two
    images, the first with a relative src. *)
Definition world_relative_image_first : article_world :=
  mkArticleWorld
    (fun _ => inl RequestException)
    (fun _ => inr (Some (lit "Guess"),
                   mkSoup (lit "Body text")
                          (lit "<div><img src='/a.png'/><img src='http://x/b.png'/>Body text</div>")
                          [Some (lit "/a.png"); Some (lit "http://x/b.png")])).

(** The primary strategy fails; the fallback finds a text and an image with
    an absolute src after one without src. *)
Definition world_absolute_image : article_world :=
  mkArticleWorld
    (fun _ => inl RequestException)
    (fun _ => inr (None,
                   mkSoup (lit "  Body text ")
                          (lit "<div><img/><img src='http://x/b.png'/>Body text</div>")
                          [None; Some (lit "http://x/b.png")])).

(** The page parses, text, title and authors are read, and formatting the
    publish date raises; the fallback fails. *)
Definition world_bad_date : article_world :=
  mkArticleWorld
    (fun _ => inr (mkArticle (Some (lit "Hello")) (Some (lit "T"))
                             (Some [lit "A"])
                             (Some (mkDatetime (inl ValueError)))
                             (Some (lit "http://x/i.png"))))
    (fun _ => inl RequestException).

(** The primary strategy extracts two paragraphs, the second indented; the
    fallback fails. *)
Definition world_indented_paragraph : article_world :=
  mkArticleWorld
    (fun _ => inr (mkArticle (Some (lit "a" ++ blank_line ++ lit " b"))
                             None None None None))
    (fun _ => inl RequestException).

(** The primary strategy extracts a short text; the fallback's is as long. *)
Definition world_tie : article_world :=
  mkArticleWorld
    (fun _ => inr (mkArticle (Some (lit "abcd")) None None None None))
    (fun _ => inr (None, mkSoup (lit "wxyz") (lit "<p>wxyz</p>") [])).

(** A request for ["http://a"]. *)
Definition request_a : article_request :=
  mkArticleRequest (Some (lit "http://a")).

(** The same with a leading space. *)
Definition request_a_padded : article_request :=
  mkArticleRequest (Some (lit " http://a")).

(* ================================================================== *)
(** * Further notions used in the statements *)
(* ================================================================== *)

(** [sep.join(l)], the inverse of [split]. *)
Fixpoint join_with (sep : pystr) (l : list pystr) : pystr :=
  match l with
  | [] => []
  | p :: rest =>
      match rest with
      | [] => p
      | _ :: _ => p ++ sep ++ join_with sep rest
      end
  end.

(** A string of ASCII digits only. *)
Definition all_digits (s : pystr) : bool :=
  forallb (fun c => (48 <=? c) && (c <=? 57)) s.

(** The number a string of ASCII digits writes in base 10. *)
Definition decimal_value (s : pystr) : Z :=
  fold_left (fun acc c => (10 * acc + (Z.of_N c - 48))%Z) s 0%Z.

(** A string has no whitespace at either end. *)
Definition trimmed (s : pystr) : Prop :=
  match s with
  | [] => True
  | c :: _ => isspace c = false /\ isspace (last s c) = false
  end.

(** The feed source used when neither the request nor the environment
    names one. *)
Definition default_feed : pystr := lit "https://hnrss.org/frontpage".

(** A feed source that raises. *)
Definition feed_unreachable : feed_world :=
  mkFeedWorld None
    (fun _ => inl (mkExn RequestException (lit "connection refused"))).

(** A well-formed feed of three entries. *)
Definition feed_of_3 : feed_world :=
  mkFeedWorld None
    (fun _ => inr (mkParsed false None [bare_entry; bare_entry; bare_entry]
                            (Some (lit "News")))).

(** An entry whose [published] is empty and whose [updated] is not, with a
    thumbnail element that has no URL beside a media content that has
    one. *)
Definition odd_entry : entry :=
  mkEntry None None (Some []) (Some (lit "2024-01-02")) (Some (lit "2024-01-01"))
          None None None
          (Some [mkMedia None]) (Some [mkMedia (Some (lit "http://x/m.png"))])
          None.

(** An attribute that is missing or holds the empty string. *)
Definition falsy (o : option pystr) : Prop := o = None \/ o = Some [].

(** A list attribute that is missing or empty. *)
Definition no_media (o : option (list media_item)) : Prop :=
  o = None \/ o = Some [].

(** [sep] occurs somewhere in [s]. *)
Fixpoint occurs (sep s : pystr) : bool :=
  match s with
  | [] => startswith sep []
  | _ :: s' => startswith sep s || occurs sep s'
  end.

(** The article world in which the fallback always raises [e], the primary
    strategy answering as in [w]. *)
Definition without_fallback (w : article_world) (e : exn_class) : article_world :=
  mkArticleWorld (newspaper_parse w) (fun _ => inl e).

(** The fallback's text wins: the primary's text is short, the fallback
    answers [r], and its text is strictly longer. *)
Definition fallback_won (w : article_world) (url : pystr)
           (r : option pystr * soup) : Prop :=
  (length (primary_text w url) < 100)%nat
  /\ readability_soup w url = inr r
  /\ (length (primary_text w url) < length (strip (get_text (snd r))))%nat.

(** The primary strategy extracts a long text with a title and an image;
    the fallback would offer a longer one. *)
Definition world_long_primary : article_world :=
  mkArticleWorld
    (fun _ => inr (mkArticle (Some (repeat 120 100)) (Some (lit "Title"))
                             (Some [lit "Ann"; lit "Bob"])
                             (Some (mkDatetime (inr (lit "2024-01-02T03:04:05"))))
                             (Some (lit "http://x/lead.png"))))
    (fun _ => inr (Some (lit "Other"),
                   mkSoup (repeat 121 200) (lit "<div>y</div>")
                          [Some (lit "http://x/other.png")])).

(** The primary strategy extracts a short text with a title, authors and an
    image; the fallback's text is longer. *)
Definition world_short_primary : article_world :=
  mkArticleWorld
    (fun _ => inr (mkArticle (Some (lit "short")) (Some (lit "Title"))
                             (Some [lit "Ann"])
                             (Some (mkDatetime (inr (lit "2024-01-02T03:04:05"))))
                             (Some (lit "/lead.png"))))
    (fun _ => inr (Some (lit "Other"),
                   mkSoup (lit "a longer body") (lit "<div>a longer body</div>")
                          [Some (lit "http://x/other.png")])).

(** The primary strategy extracts one line that holds markup; the fallback
    fails. *)
Definition world_markup_line : article_world :=
  mkArticleWorld
    (fun _ => inr (mkArticle (Some (lit "a <b> & c")) None None None None))
    (fun _ => inl RequestException).

(** ** What the item of an entry holds, field by field *)

(** The value of a string attribute that is present and not empty. *)
Definition present (o : option pystr) : option pystr :=
  match o with
  | Some (c :: s) => Some (c :: s)
  | _ => None
  end.

(** The first element of a list attribute that is present and not empty. *)
Definition first_media (o : option (list media_item)) : option media_item :=
  match o with
  | Some (m :: _) => Some m
  | _ => None
  end.

(** The URL an element of a media list holds, empty when it holds none. *)
Definition media_url (m : media_item) : pystr :=
  match m_url m with Some u => u | None => [] end.

(** The title of the entry, ["(no title)"] when it has none. *)
Definition item_title (e : entry) : pystr :=
  match e_title e with Some t => t | None => lit "(no title)" end.

(** The link of the entry, empty when it has none. *)
Definition item_link (e : entry) : pystr :=
  match e_link e with Some l => l | None => [] end.

(** The first of published, updated and created that is present, a
    present but empty one counting as not present (line 54). *)
Definition item_published (e : entry) : pystr :=
  match present (e_published e), present (e_updated e), present (e_created e) with
  | Some s, _, _ => s
  | None, Some s, _ => s
  | None, None, Some s => s
  | None, None, None => []
  end.

(** The first 2000 code points of the description source. *)
Definition item_description (e : entry) : pystr :=
  firstn 2000 (description_source e).

(** The URL of the first media thumbnail, else of the first media
    content, else nothing. *)
Definition item_thumbnail (e : entry) : pystr :=
  match first_media (e_media_thumbnail e), first_media (e_media_content e) with
  | Some m, _ => media_url m
  | None, Some m => media_url m
  | None, None => []
  end.

(** The author of the entry, empty when it has none. *)
Definition item_author (e : entry) : pystr :=
  match e_author e with Some a => a | None => [] end.

(** The keys of an item. *)
Definition item_keys : list String.string :=
  ["title"; "link"; "published"; "description"; "thumbnail"; "author"].

(** [it] carries entry [e]: it is an object of six fields, and under each
    of the six keys it holds the string the entry gives for it. *)
Definition carries (it : json) (e : entry) : Prop :=
  exists fs,
    it = JObj fs
    /\ length fs = 6%nat
    /\ field "title" fs = Some (JStr (item_title e))
    /\ field "link" fs = Some (JStr (item_link e))
    /\ field "published" fs = Some (JStr (item_published e))
    /\ field "description" fs = Some (JStr (item_description e))
    /\ field "thumbnail" fs = Some (JStr (item_thumbnail e))
    /\ field "author" fs = Some (JStr (item_author e)).

(** An entry with every kind of attribute: no [published] but an
    [updated], a rich content beside a summary, a thumbnail beside a media
    content. *)
Definition rich_entry : entry :=
  mkEntry (Some (lit "T")) (Some (lit "http://l"))
          None (Some (lit "2024-01-02")) (Some (lit "2024-01-01"))
          (Some [mkContent (Some (lit "<p>c</p>"))]) (Some (lit "s")) None
          (Some [mkMedia (Some (lit "http://t"))])
          (Some [mkMedia (Some (lit "http://m"))])
          (Some (lit "A")).

(** A feed that is not well-formed and still yields that entry and a bare
    one. *)
Definition bozo_feed_of_2 : feed_world :=
  mkFeedWorld None
    (fun _ => inr (mkParsed true (Some (lit "not well-formed"))
                            [rich_entry; bare_entry] None)).

(* ================================================================== *)
(** * Properties of the feed endpoint *)
(* ================================================================== *)

Section FeedLimit.

Local Open Scope Z_scope.

Lemma slice_to_nonneg (A : Type) (l : list A) (n : Z) :
  0 <= n -> slice_to l n = firstn (Z.to_nat n) l.
Proof.
  intros Hn. unfold slice_to.
  destruct (Z.leb_spec 0 n); [reflexivity | lia].
Qed.

Lemma slice_to_length (A : Type) (l : list A) (n : Z) :
  0 <= n -> (length (slice_to l n) <= Z.to_nat n)%nat.
Proof.
  intros Hn. rewrite slice_to_nonneg by assumption.
  rewrite length_firstn. apply Nat.le_min_l.
Qed.

Lemma slice_to_all (A : Type) (l : list A) (n : Z) :
  Z.of_nat (length l) <= n -> slice_to l n = l.
Proof.
  intros Hn. rewrite slice_to_nonneg by lia.
  apply firstn_all2. lia.
Qed.

Lemma slice_to_negative (A : Type) (l : list A) (n : Z) :
  n < 0 -> slice_to l n = firstn (length l - Z.to_nat (- n)) l.
Proof.
  intros Hn. unfold slice_to.
  destruct (Z.leb_spec 0 n); [lia |].
  f_equal. lia.
Qed.

(** A response of [news_feed] that carries items carries the normalised
    [parsed.entries[:limit]]. *)
Lemma news_feed_items (w : feed_world) (req : feed_request) (k : nat) :
  item_count (news_feed w req) = Some k ->
  exists lim p,
    limit req = Some lim /\
    feedparser_parse w (feed_url w req) = inr p /\
    k = length (slice_to (entries p) lim).
Proof.
  unfold news_feed. destruct (limit req) as [lim|]; [| discriminate].
  destruct (feedparser_parse w (feed_url w req)) as [e|p]; [discriminate |].
  destruct (bozo p && is_nil (entries p))%bool; [discriminate |].
  cbn. unfold items. rewrite length_map.
  intros [= <-]. exists lim, p. auto.
Qed.

(** The part of the limit rule that holds: a limit above 50 is clamped. *)
Lemma news_feed_limit_above_50 (w : feed_world) (req : feed_request)
      (s : pystr) (n : Z) (k : nat) :
  fr_limit req = Some s -> py_int s = Some n -> 50 < n ->
  item_count (news_feed w req) = Some k -> (k <= 50)%nat.
Proof.
  intros Hs Hn Hgt Hk.
  destruct (news_feed_items _ _ Hk) as (lim & p & Hlim & _ & ->).
  unfold limit in Hlim. rewrite Hs, Hn in Hlim. cbn in Hlim.
  injection Hlim as <-.
  replace (Z.min n 50) with 50 by lia.
  apply (slice_to_length (entries p) (n := 50)). lia.
Qed.

(** The part of the limit rule that holds: no limit given means 20. *)
Lemma news_feed_limit_absent (w : feed_world) (req : feed_request) (k : nat) :
  fr_limit req = None ->
  item_count (news_feed w req) = Some k -> (k <= 20)%nat.
Proof.
  intros Hs Hk.
  destruct (news_feed_items _ _ Hk) as (lim & p & Hlim & _ & ->).
  unfold limit in Hlim. rewrite Hs in Hlim. injection Hlim as <-.
  apply (slice_to_length (entries p) (n := 20)). lia.
Qed.

(** The part of the limit rule that holds: a limit of 0 gives no item. *)
Lemma news_feed_limit_zero (w : feed_world) (req : feed_request)
      (s : pystr) (k : nat) :
  fr_limit req = Some s -> py_int s = Some 0 ->
  item_count (news_feed w req) = Some k -> k = 0%nat.
Proof.
  intros Hs Hn Hk.
  destruct (news_feed_items _ _ Hk) as (lim & p & Hlim & _ & ->).
  unfold limit in Hlim. rewrite Hs, Hn in Hlim. cbn in Hlim.
  injection Hlim as <-. reflexivity.
Qed.

(** A negative limit drops entries from the end instead of bounding the
    count: all but the last [-n] entries are returned. *)
Lemma news_feed_limit_negative (w : feed_world) (req : feed_request)
      (s : pystr) (n : Z) (k : nat) :
  fr_limit req = Some s -> py_int s = Some n -> n < 0 ->
  item_count (news_feed w req) = Some k ->
  exists p, feedparser_parse w (feed_url w req) = inr p /\
            k = (length (entries p) - Z.to_nat (- n))%nat.
Proof.
  intros Hs Hn Hneg Hk.
  destruct (news_feed_items _ _ Hk) as (lim & p & Hlim & Hp & ->).
  unfold limit in Hlim. rewrite Hs, Hn in Hlim. cbn in Hlim.
  injection Hlim as <-.
  exists p. split; [assumption |].
  replace (Z.min n 50) with n by lia.
  rewrite slice_to_negative by assumption.
  rewrite length_firstn. lia.
Qed.

End FeedLimit.

(** C1, at the input where the code departs from it.  The claim: a limit
    above 50 gives at most 50 items, and an absent limit or a limit of at
    most 0 gives at most 20.  With [limit=-1] and a feed of 52 entries the
    handler answers 200 with 51 items: the slice [entries[:-1]] drops the
    last entry, it does not bound the count. *)
Theorem news_feed_negative_limit_not_capped :
  news_feed feed_of_52 (mkFeedRequest None (Some (lit "-1")))
  = Response 200
      (JObj [("items", JArr (repeat (item_of bare_entry) 51));
             ("feed_title", JStr [])])
  /\ item_count (news_feed feed_of_52 (mkFeedRequest None (Some (lit "-1"))))
     = Some 51%nat.
Proof. split; vm_compute; reflexivity. Qed.

(** C10.  On a feed request whose limit is the string ["abc"], which is
    not a decimal integer, the limit conversion raises [ValueError] before
    any clamping or default applies; nothing catches it, so the handler
    returns neither a 200 nor a 502 response, whatever the URL parameter is
    and whatever the feed source would have answered. *)
Theorem news_feed_limit_abc_unhandled :
  forall (url : option pystr) (w : feed_world),
    let req := mkFeedRequest url (Some (lit "abc")) in
    py_int (lit "abc") = None /\
    limit req = None /\
    news_feed w req = Unhandled ValueError /\
    status_of (news_feed w req) = None.
Proof.
  intros url w. repeat split.
Qed.

Section FeedEntries.

Lemma py_or_nil (s : pystr) : py_or s [] = s.
Proof. destruct s; reflexivity. Qed.

Lemma description_take (e : entry) :
  description e = firstn 2000 (description_source e).
Proof.
  unfold description, description_source, rich_content_body, take.
  destruct (e_content e) as [[|c cs]|];
    try reflexivity;
    destruct (e_summary e) as [s|];
    rewrite ?py_or_nil; try reflexivity;
    destruct (e_description e) as [d|];
    rewrite ?py_or_nil; reflexivity.
Qed.

(** C7.  The description of a normalised entry, the one its item carries,
    is the first 2000 code points of the first present source in the order
    rich content body, summary, description, and the empty string when none
    is present; a source longer than 2000 code points gives exactly its
    first 2000. *)
Theorem description_first_2000_of_source (e : entry) :
  field "description" (match item_of e with JObj fs => fs | _ => [] end)
    = Some (JStr (description e))
  /\ description e = firstn 2000 (description_source e)
  /\ (e_content e = None -> e_summary e = None -> e_description e = None ->
      description e = [])
  /\ ((2000 < length (description_source e))%nat ->
      length (description e) = 2000%nat
      /\ description_source e = description e ++ skipn 2000 (description_source e)).
Proof.
  split; [reflexivity |].
  split; [apply description_take |].
  split.
  - intros Hc Hs Hd. unfold description. rewrite Hc, Hs, Hd. reflexivity.
  - intros Hlen. rewrite description_take. split.
    + rewrite length_firstn. apply Nat.min_l. apply Nat.lt_le_incl, Hlen.
    + symmetry. apply firstn_skipn.
Qed.

Lemma description_first_2000_of_source_witness :
  description long_summary_entry = repeat 120 2000
  /\ length (description long_summary_entry) = 2000%nat.
Proof.
  pose proof (description_first_2000_of_source long_summary_entry)
    as (_ & Htake & _ & Hlong).
  split.
  - rewrite Htake. vm_compute. reflexivity.
  - apply Hlong. vm_compute. apply Nat.le_refl.
Defined.

(** The item the handler builds for an entry carries that entry. *)
Lemma item_of_carries (e : entry) : carries (item_of e) e.
Proof.
  unfold carries, item_of. eexists. split; [reflexivity |].
  split; [reflexivity |].
  cbn [field String.eqb Ascii.eqb Bool.eqb].
  repeat split.
  - do 2 f_equal. unfold published, item_published.
    destruct (e_published e) as [[|c1 s1]|]; cbn; try reflexivity;
      destruct (e_updated e) as [[|c2 s2]|]; cbn; try reflexivity;
      destruct (e_created e) as [[|c3 s3]|]; reflexivity.
  - do 2 f_equal. apply description_take.
  - do 2 f_equal. unfold thumbnail, item_thumbnail, media_url.
    destruct (e_media_thumbnail e) as [[|m1 l1]|]; cbn;
      try (destruct (m_url m1); reflexivity);
      destruct (e_media_content e) as [[|m2 l2]|]; cbn; try reflexivity;
      destruct (m_url m2); reflexivity.
Qed.

Lemma items_carry (l : list entry) : Forall2 carries (map item_of l) l.
Proof.
  induction l as [|e l IH]; cbn; constructor; [apply item_of_carries | exact IH].
Qed.

(** C6.  When the parse reports a structural problem ([bozo]) the handler
    answers by the number of entries.  With at least one entry it answers
    200, and the items of the response carry the entries of
    [entries[:limit]], one item per entry and in their order (all of the
    entries when the limit does not cut them): each item holds the entry's
    title (or ["(no title)"]), link, first non-empty timestamp, first 2000
    code points of its description source, thumbnail URL and author.  With
    no entry it answers 502, and the body is an [error] field reading
    ["Feed error: "] followed by the text of the parser's exception. *)
Theorem news_feed_bozo (w : feed_world) (req : feed_request)
        (lim : Z) (p : parsed_feed) :
  limit req = Some lim ->
  feedparser_parse w (feed_url w req) = inr p ->
  bozo p = true ->
  (entries p <> [] ->
     news_feed w req
     = Response 200
         (JObj [("items", JArr (map item_of (slice_to (entries p) lim)));
                ("feed_title", JStr (or_default (parsed_feed_title p) []))])
     /\ (exists its,
           body_field "items" (news_feed w req) = Some (JArr its)
           /\ Forall2 carries its (slice_to (entries p) lim))
     /\ ((Z.of_nat (length (entries p)) <= lim)%Z ->
         body_field "items" (news_feed w req)
         = Some (JArr (map item_of (entries p)))
         /\ exists its,
              body_field "items" (news_feed w req) = Some (JArr its)
              /\ Forall2 carries its (entries p)))
  /\ (entries p = [] ->
     news_feed w req
     = Response 502
         (JObj [("error",
                 JStr (lit "Feed error: "
                       ++ or_default (bozo_exception p)
                                     (lit "Unknown parse error")))])).
Proof.
  intros Hlim Hp Hbozo. unfold news_feed. rewrite Hlim, Hp, Hbozo.
  split.
  - intros Hne. destruct (entries p) as [|e es] eqn:He; [contradiction |].
    cbn [is_nil andb]. rewrite py_or_nil. unfold items. rewrite He.
    split; [reflexivity |].
    cbn [body_field field String.eqb Ascii.eqb Bool.eqb].
    split.
    + eexists. split; [reflexivity | apply items_carry].
    + intros Hall. rewrite slice_to_all by assumption.
      split; [reflexivity |].
      eexists. split; [reflexivity | apply items_carry].
  - intros ->. reflexivity.
Qed.

Lemma news_feed_bozo_witness :
  news_feed bozo_feed_of_2 (mkFeedRequest None None)
  = Response 200
      (JObj [("items",
              JArr [JObj [("title", JStr (lit "T"));
                          ("link", JStr (lit "http://l"));
                          ("published", JStr (lit "2024-01-02"));
                          ("description", JStr (lit "<p>c</p>"));
                          ("thumbnail", JStr (lit "http://t"));
                          ("author", JStr (lit "A"))];
                    JObj [("title", JStr (lit "t"));
                          ("link", JStr []);
                          ("published", JStr []);
                          ("description", JStr []);
                          ("thumbnail", JStr []);
                          ("author", JStr [])]]);
             ("feed_title", JStr [])])
  /\ news_feed bozo_feed_of_0 (mkFeedRequest None None)
     = Response 502
         (JObj [("error", JStr (lit "Feed error: not well-formed"))]).
Proof.
  split.
  - refine (proj1 (proj1 (news_feed_bozo bozo_feed_of_2 (mkFeedRequest None None)
                            (lim := 20%Z)
                            (p := mkParsed true (Some (lit "not well-formed"))
                                           [rich_entry; bare_entry] None)
                            _ _ _) _));
      [reflexivity | reflexivity | reflexivity | discriminate].
  - apply (news_feed_bozo bozo_feed_of_0 (mkFeedRequest None None)
             (lim := 20%Z)
             (p := mkParsed true (Some (lit "not well-formed")) [] None));
      reflexivity.
Defined.

End FeedEntries.

(* ================================================================== *)
(** * Properties of the article endpoint *)
(* ================================================================== *)

Section ArticleSteps.

Variable w : article_world.
Variable url : pystr.

(** Unfold one step of the handler's monad. *)
Ltac step :=
  unfold primary, primary_body, fallback, fallback_body, adopt_image,
         synthesize, try_except, bind, call, method, assign, get, pass, ret;
  cbn [fst snd vars started handle
       isinstance_ArticleException_or_RequestException
       isinstance_ImportError isinstance_Exception].

(** Attempt 1 never lets an exception out. *)
Lemma primary_returns (st : store) : fst (primary w url st) = inr tt.
Proof.
  step.
  destruct (newspaper_parse w url) as [e|a]; cbn.
  - destruct e; reflexivity.
  - destruct (art_publish_date a) as [d|]; cbn; [| reflexivity].
    destruct (isoformat d) as [e|iso]; cbn; [destruct e |]; reflexivity.
Qed.

(** Attempt 1 starts the primary strategy, once. *)
Lemma primary_started (st : store) :
  started (snd (primary w url st)) = started st ++ [Primary].
Proof.
  step.
  destruct (newspaper_parse w url) as [e|a]; cbn.
  - destruct e; reflexivity.
  - destruct (art_publish_date a) as [d|]; cbn; [| reflexivity].
    destruct (isoformat d) as [e|iso]; cbn; [destruct e |]; reflexivity.
Qed.

(** Attempt 2, case by case. *)
Lemma fallback_run (st : store) :
  fallback w url st =
  (inr tt,
   if (length (text (vars st)) <? 100)%nat then
     mkStore
       (match readability_soup w url with
        | inr r =>
            if (length (text (vars st)) <? length (strip (get_text (snd r))))%nat
            then fallback_wins (vars st) r
            else vars st
        | inl _ => vars st
        end)
       (started st ++ [Fallback])
   else st).
Proof.
  step. destruct (length (text (vars st)) <? 100)%nat; [| reflexivity].
  step. destruct (readability_soup w url) as [e|[t sp]];
    cbn -[Nat.ltb startswith].
  - destruct e; reflexivity.
  - destruct (length (text (vars st)) <? length (strip (get_text sp)))%nat;
      [| reflexivity].
    unfold fallback_wins, adopted_img_src. cbn -[startswith].
    destruct (truthy (title (vars st))); cbn -[startswith];
      destruct (truthy (top_image (vars st))); cbn -[startswith];
      try reflexivity;
      destruct (find_img_src (imgs sp)) as [src|]; try reflexivity;
      destruct (startswith _ src); reflexivity.
Qed.

(** The HTML step, case by case. *)
Lemma synthesize_run (st : store) :
  synthesize st =
  (inr tt,
   if truthy (text (vars st)) && negb (truthy (html_content (vars st)))
   then mkStore (set_html_content
                   (html_of_paragraphs (paragraphs (text (vars st))))
                   (vars st))
                (started st)
   else st).
Proof.
  step.
  destruct (truthy (text (vars st)) && negb (truthy (html_content (vars st))));
    reflexivity.
Qed.

(** The handler's body is its three steps in sequence, none of which
    raises. *)
Lemma run_article_steps :
  run_article w url
  = synthesize (snd (fallback w url (after_primary w url))).
Proof.
  unfold run_article, after_primary, bind.
  pose proof (primary_returns init_store) as Hp.
  destruct (primary w url init_store) as [r st]. cbn in Hp. subst r.
  cbn [snd]. rewrite fallback_run. reflexivity.
Qed.

Lemma after_fallback_steps :
  after_fallback w url = snd (fallback w url (after_primary w url)).
Proof.
  unfold after_fallback, after_primary, bind.
  pose proof (primary_returns init_store) as Hp.
  destruct (primary w url init_store) as [r st]. cbn in Hp. subst r.
  reflexivity.
Qed.

Lemma run_article_returns : fst (run_article w url) = inr tt.
Proof. rewrite run_article_steps, synthesize_run. reflexivity. Qed.

Lemma final_store_steps :
  final_store w url = snd (synthesize (after_fallback w url)).
Proof.
  unfold final_store. rewrite run_article_steps, after_fallback_steps.
  reflexivity.
Qed.

(** The HTML step leaves the text and the record of strategies alone. *)
Lemma final_text : text (vars (final_store w url)) = text (vars (after_fallback w url)).
Proof.
  rewrite final_store_steps, synthesize_run. cbn [snd].
  destruct (truthy _ && negb _); reflexivity.
Qed.

Lemma final_started : started (final_store w url) = started (after_fallback w url).
Proof.
  rewrite final_store_steps, synthesize_run. cbn [snd].
  destruct (truthy _ && negb _); reflexivity.
Qed.

Lemma final_top_image :
  top_image (vars (final_store w url)) = top_image (vars (after_fallback w url)).
Proof.
  rewrite final_store_steps, synthesize_run. cbn [snd].
  destruct (truthy _ && negb _); reflexivity.
Qed.

End ArticleSteps.

(** A request with a URL is answered 200 with the final locals. *)
Lemma fetch_article_ok (w : article_world) (req : article_request) :
  url_of req <> [] ->
  fetch_article w req
  = Response 200 (article_json (vars (final_store w (url_of req))) (url_of req)).
Proof.
  intros Hurl. unfold fetch_article, final_store.
  destruct (url_of req) as [|c u] eqn:Hu; [contradiction |].
  cbn [truthy negb].
  pose proof (run_article_returns w (c :: u)) as Hr.
  destruct (run_article w (c :: u)) as [r st]. cbn in Hr. subst r.
  reflexivity.
Qed.

(** A request without one is answered 400. *)
Lemma fetch_article_400 (w : article_world) (req : article_request) :
  url_of req = [] -> fetch_article w req = Response 400 url_required.
Proof.
  intros Hurl. unfold fetch_article. rewrite Hurl. reflexivity.
Qed.

Section ArticleFacts.

Variable w : article_world.
Variable url : pystr.

(** Attempt 1 leaves the HTML empty and records the primary strategy. *)
Lemma after_primary_html : html_content (vars (after_primary w url)) = [].
Proof.
  unfold after_primary, primary, primary_body, try_except, bind, call,
         method, assign, ret, pass.
  cbn [init_store vars started].
  destruct (newspaper_parse w url) as [e|a]; cbn.
  - destruct e; reflexivity.
  - destruct (art_publish_date a) as [d|]; cbn; [| reflexivity].
    destruct (isoformat d) as [e|iso]; cbn; [destruct e |]; reflexivity.
Qed.

Lemma after_primary_started : started (after_primary w url) = [Primary].
Proof. unfold after_primary. rewrite primary_started. reflexivity. Qed.

Lemma fallback_wins_text (s : locals) (r : option pystr * soup) :
  text (fallback_wins s r) = strip (get_text (snd r)).
Proof.
  unfold fallback_wins. cbn -[startswith].
  destruct (truthy (title s)); cbn -[startswith];
    destruct (truthy (top_image s)); cbn -[startswith]; try reflexivity;
    destruct (adopted_img_src (imgs (snd r))); reflexivity.
Qed.

Lemma fallback_wins_html (s : locals) (r : option pystr * soup) :
  html_content (fallback_wins s r) = soup_str (snd r).
Proof.
  unfold fallback_wins. cbn -[startswith].
  destruct (truthy (title s)); cbn -[startswith];
    destruct (truthy (top_image s)); cbn -[startswith]; try reflexivity;
    destruct (adopted_img_src (imgs (snd r))); reflexivity.
Qed.

Lemma fallback_wins_top_image (s : locals) (r : option pystr * soup) :
  top_image s = [] ->
  top_image (fallback_wins s r)
  = match adopted_img_src (imgs (snd r)) with Some src => src | None => [] end.
Proof.
  intros Himg. unfold fallback_wins. cbn -[startswith].
  destruct (truthy (title s)); cbn -[startswith];
    rewrite Himg; cbn -[startswith];
    destruct (adopted_img_src (imgs (snd r))); cbn; auto.
Qed.



(** HTML before the last step comes with text. *)
Lemma after_fallback_html_has_text :
  text (vars (after_fallback w url)) = [] ->
  html_content (vars (after_fallback w url)) = [].
Proof.
  rewrite after_fallback_steps, fallback_run. cbn [snd].
  destruct (length (text (vars (after_primary w url))) <? 100)%nat;
    cbn [vars]; [| intros _; apply after_primary_html].
  destruct (readability_soup w url) as [e|r];
    [intros _; apply after_primary_html |].
  destruct (Nat.ltb_spec (length (text (vars (after_primary w url))))
                         (length (strip (get_text (snd r)))));
    [| intros _; apply after_primary_html].
  rewrite fallback_wins_text. intros Hnil. rewrite Hnil in H.
  cbn in H. inversion H.
Qed.

End ArticleFacts.

(** ** The primary strategy's failures (C4) *)

(** C4 as the specification states it fails: an exception raised inside the
    primary strategy is caught, but the state it leaves need not be empty.
    Here the page parses, text, title and authors are assigned, and
    [isoformat()] raises: the three assigned locals keep their values. *)
Lemma primary_exception_keeps_assigned_fields :
  fst (primary_body world_bad_date (lit "http://a") init_store) = inl ValueError
  /\ fst (primary world_bad_date (lit "http://a") init_store) = inr tt
  /\ vars (after_primary world_bad_date (lit "http://a"))
     = mkLocals (lit "Hello") [] (lit "T") [lit "A"] [] []
  /\ vars (after_primary world_bad_date (lit "http://a")) <> init_locals.
Proof.
  repeat split; try reflexivity.
  vm_compute. discriminate.
Qed.

(** C4, amended.  An exception raised inside the primary strategy is caught
    and never reaches the caller, and the locals are left as the statements
    run before it set them: all five empty when the download or the parse
    raised; text, title and authors assigned, publish date and lead image
    still empty, when formatting the publish date raised. *)
Theorem primary_exception_caught (w : article_world) (url : pystr)
        (e : exn_class) (st : store) :
  primary_body w url init_store = (inl e, st) ->
  primary w url init_store = (inr tt, st)
  /\ (forall req, url_of req = url ->
        exists status body, fetch_article w req = Response status body)
  /\ ((newspaper_parse w url = inl e /\ vars st = init_locals)
      \/ (exists a d,
            newspaper_parse w url = inr a
            /\ art_publish_date a = Some d
            /\ isoformat d = inl e
            /\ vars st = mkLocals (strip (or_else (art_text a) [])) []
                                  (or_else (art_title a) [])
                                  (or_else (art_authors a) []) [] [])).
Proof.
  intros Hbody. split; [| split].
  - unfold primary, try_except. rewrite Hbody.
    destruct e; reflexivity.
  - intros req <-. destruct (url_of req) as [|c u] eqn:Hu.
    + exists 400%nat, url_required. apply fetch_article_400, Hu.
    + eexists _, _. apply fetch_article_ok. rewrite Hu. discriminate.
  - revert Hbody.
    unfold primary_body, bind, call, method, assign, ret.
    cbn [init_store vars started].
    destruct (newspaper_parse w url) as [e'|a].
    + intros [= -> <-]. left. split; reflexivity.
    + cbn [vars started].
      destruct (art_publish_date a) as [d|] eqn:Hd; [| discriminate].
      destruct (isoformat d) as [e'|iso] eqn:Hiso; [| discriminate].
      intros [= -> <-]. right. exists a, d. repeat split; assumption.
Qed.

Lemma primary_exception_caught_witness :
  primary world_bad_date (lit "http://a") init_store
  = (inr tt, mkStore (mkLocals (lit "Hello") [] (lit "T") [lit "A"] [] [])
                     [Primary])
  /\ primary world_down (lit "http://a") init_store
     = (inr tt, mkStore init_locals [Primary]).
Proof.
  split.
  - apply (primary_exception_caught world_bad_date (lit "http://a")
             (e := ValueError)).
    reflexivity.
  - apply (primary_exception_caught world_down (lit "http://a")
             (e := RequestException)).
    reflexivity.
Defined.

(** ** The fallback policy (C3) *)



(** ** Status codes (C5) *)

Lemma url_of_nil (req : article_request) :
  url_of req = [] <->
  ar_url req = None \/ exists s, ar_url req = Some s /\ strip s = [].
Proof.
  unfold url_of. destruct (ar_url req) as [s|]; cbn [or_default].
  - split.
    + intros H. right. exists s. auto.
    + intros [H | (s' & [= <-] & H)]; [discriminate | assumption].
  - split; [auto | reflexivity].
Qed.

(** C5.  The article endpoint answers 400, with the body
    [{"error": "url parameter is required"}], exactly when the url parameter
    is absent or is empty once stripped.  On every other input it answers
    200 with the seven fields title, authors, publish_date, top_image, text,
    html and source_url; when both strategies raise, the first six are
    empty. *)
Theorem fetch_article_status (w : article_world) (req : article_request) :
  (url_of req = [] <->
   ar_url req = None \/ exists s, ar_url req = Some s /\ strip s = [])
  /\ (status_of (fetch_article w req) = Some 400%nat <-> url_of req = [])
  /\ (url_of req = [] -> fetch_article w req = Response 400 url_required)
  /\ (url_of req <> [] ->
      status_of (fetch_article w req) = Some 200%nat
      /\ body_keys (fetch_article w req) = article_keys)
  /\ (url_of req <> [] ->
      (exists e, newspaper_parse w (url_of req) = inl e) ->
      (exists e, readability_soup w (url_of req) = inl e) ->
      fetch_article w req
      = Response 200 (article_json init_locals (url_of req))).
Proof.
  split; [apply url_of_nil |].
  split; [| split; [apply fetch_article_400 | split]].
  - split.
    + intros H400. destruct (url_of req) as [|c u] eqn:Hu; [reflexivity |].
      rewrite fetch_article_ok in H400 by (rewrite Hu; discriminate).
      discriminate.
    + intros Hu. rewrite fetch_article_400 by assumption. reflexivity.
  - intros Hu. rewrite fetch_article_ok by assumption. split; reflexivity.
  - intros Hu [e He] [e' He']. rewrite fetch_article_ok by assumption.
    f_equal. f_equal.
    rewrite final_store_steps, synthesize_run, after_fallback_steps,
            fallback_run.
    unfold after_primary, primary, primary_body, try_except, bind, call.
    rewrite He, He'. destruct e; reflexivity.
Qed.

Lemma fetch_article_status_witness :
  fetch_article world_down (mkArticleRequest (Some (lit "  ")))
  = Response 400 url_required
  /\ fetch_article world_down request_a
     = Response 200 (article_json init_locals (lit "http://a")).
Proof.
  split.
  - apply (fetch_article_status world_down (mkArticleRequest (Some (lit "  ")))).
    reflexivity.
  - refine (proj2 (proj2 (proj2 (proj2
              (fetch_article_status world_down request_a)))) _ _ _).
    + discriminate.
    + exists RequestException. reflexivity.
    + exists RequestException. reflexivity.
Defined.

(** ** The echoed URL (C9) *)

(** C9 as stated fails: the URL is stripped before it is used and echoed,
    so an input with a leading space does not come back as supplied. *)
Lemma source_url_not_as_supplied :
  ar_url request_a_padded = Some (lit " http://a")
  /\ status_of (fetch_article world_down request_a_padded) = Some 200%nat
  /\ str_field "source_url" (fetch_article world_down request_a_padded)
     = Some (lit "http://a")
  /\ str_field "source_url" (fetch_article world_down request_a_padded)
     <> ar_url request_a_padded.
Proof.
  repeat split; try reflexivity.
  vm_compute. discriminate.
Qed.

(** C9, amended.  On a request that is not answered 400, [source_url] is
    the url parameter with its leading and trailing whitespace removed; it
    is the parameter as supplied when that has no such whitespace. *)
Theorem source_url_is_stripped_url (w : article_world) (req : article_request) :
  status_of (fetch_article w req) <> Some 400%nat ->
  str_field "source_url" (fetch_article w req)
  = Some (strip (or_default (ar_url req) []))
  /\ (forall s, ar_url req = Some s -> strip s = s ->
                str_field "source_url" (fetch_article w req) = Some s).
Proof.
  intros Hstatus.
  assert (Hu : url_of req <> []).
  { intros Hu. apply Hstatus. rewrite fetch_article_400 by assumption.
    reflexivity. }
  assert (Hsrc : str_field "source_url" (fetch_article w req)
                 = Some (url_of req)).
  { rewrite fetch_article_ok by assumption. reflexivity. }
  split; [exact Hsrc |].
  intros s Hs Hstrip. rewrite Hsrc. unfold url_of. rewrite Hs.
  cbn [or_default]. rewrite Hstrip. reflexivity.
Qed.

Lemma source_url_is_stripped_url_witness :
  str_field "source_url" (fetch_article world_down request_a_padded)
  = Some (lit "http://a").
Proof.
  refine (proj1 (source_url_is_stripped_url world_down request_a_padded _)).
  vm_compute. discriminate.
Defined.

(** ** The lead image taken from the fallback (C2) *)

(** C2 as stated fails: the handler looks at one image only, the first img
    element that has a src attribute, and adopts nothing when that src does
    not begin with ["http"].  Here the fallback's text wins, the primary set
    no image, the first image is relative and the second absolute: the
    result has no lead image. *)
Lemma relative_first_image_hides_later_ones :
  top_image (vars (after_primary world_relative_image_first (lit "http://a")))
  = []
  /\ str_field "text" (fetch_article world_relative_image_first request_a)
     = fallback_text world_relative_image_first (lit "http://a")
  /\ first_http_img_src [Some (lit "/a.png"); Some (lit "http://x/b.png")]
     = Some (lit "http://x/b.png")
  /\ str_field "top_image" (fetch_article world_relative_image_first request_a)
     = Some []
  /\ str_field "top_image" (fetch_article world_relative_image_first request_a)
     <> first_http_img_src [Some (lit "/a.png"); Some (lit "http://x/b.png")].
Proof.
  repeat split; try reflexivity.
  vm_compute. discriminate.
Qed.

(** The two readings agree when the first image that has a src is
    absolute. *)
Lemma adopted_img_src_first_http (l : list (option pystr)) (src : pystr) :
  adopted_img_src l = Some src -> first_http_img_src l = Some src.
Proof.
  unfold adopted_img_src.
  induction l as [|[s|] l IH]; cbn -[startswith]; [discriminate | | exact IH].
  destruct (startswith _ s); [auto | discriminate].
Qed.

(** C2, amended.  When the fallback's text wins and the primary strategy set
    no lead image, [top_image] is the src of the first img element of the
    fallback HTML that has a src attribute, provided that src begins with
    ["http"]; when it does not, or no img element has a src, [top_image]
    stays empty.  An adopted image is also the first one whose src begins
    with ["http"]. *)
Theorem top_image_from_fallback (w : article_world) (req : article_request)
        (r : option pystr * soup) :
  url_of req <> [] ->
  (length (text (vars (after_primary w (url_of req)))) < 100)%nat ->
  readability_soup w (url_of req) = inr r ->
  (length (text (vars (after_primary w (url_of req))))
   < length (strip (get_text (snd r))))%nat ->
  top_image (vars (after_primary w (url_of req))) = [] ->
  str_field "text" (fetch_article w req) = Some (strip (get_text (snd r)))
  /\ str_field "top_image" (fetch_article w req)
     = Some (match find_img_src (imgs (snd r)) with
             | Some src => if startswith (lit "http") src then src else []
             | None => []
             end)
  /\ (forall src, str_field "top_image" (fetch_article w req) = Some src ->
                  src <> [] ->
                  first_http_img_src (imgs (snd r)) = Some src).
Proof.
  intros Hurl Hshort Hr Hlong Himg.
  set (url := url_of req) in *.
  set (s1 := vars (after_primary w url)) in *.
  assert (Hst : vars (after_fallback w url) = fallback_wins s1 r).
  { rewrite after_fallback_steps, fallback_run. cbn [snd]. fold s1.
    apply Nat.ltb_lt in Hshort, Hlong. rewrite Hshort, Hr, Hlong.
    reflexivity. }
  assert (Htop : str_field "top_image" (fetch_article w req)
                 = Some (match adopted_img_src (imgs (snd r)) with
                         | Some src => src
                         | None => []
                         end)).
  { rewrite fetch_article_ok by assumption. cbn. fold url.
    rewrite final_top_image, Hst, fallback_wins_top_image by assumption.
    reflexivity. }
  split; [| split].
  - rewrite fetch_article_ok by assumption. cbn. fold url.
    rewrite final_text, Hst, fallback_wins_text. reflexivity.
  - rewrite Htop. unfold adopted_img_src.
    destruct (find_img_src (imgs (snd r))) as [src|]; [| reflexivity].
    destruct (startswith (lit "http") src); reflexivity.
  - intros src Hsrc Hne. rewrite Htop in Hsrc.
    destruct (adopted_img_src (imgs (snd r))) as [src'|] eqn:Ha.
    + injection Hsrc as <-. apply adopted_img_src_first_http, Ha.
    + injection Hsrc as <-. contradiction.
Qed.

Lemma top_image_from_fallback_witness :
  str_field "top_image" (fetch_article world_absolute_image request_a)
  = Some (lit "http://x/b.png").
Proof.
  refine (proj1 (proj2
            (top_image_from_fallback world_absolute_image request_a
               (r := (None,
                      mkSoup (lit "  Body text ")
                             (lit "<div><img/><img src='http://x/b.png'/>Body text</div>")
                             [None; Some (lit "http://x/b.png")]))
               _ _ _ _ _)));
    [discriminate | vm_compute; lia | reflexivity | vm_compute; lia
     | reflexivity].
Defined.

(** ** The HTML built from the text (C8) *)

(** C8 as stated fails: each surviving segment is stripped before it is
    wrapped.  Here the text is ["a\n\n b"] with no HTML: wrapping the
    segments as they are would give [<p>a</p><p> b</p>]; the handler gives
    [<p>a</p><p>b</p>]. *)
Lemma synthesized_paragraphs_are_stripped :
  text (vars (after_fallback world_indented_paragraph (lit "http://a")))
  = lit "a" ++ blank_line ++ lit " b"
  /\ html_content (vars (after_fallback world_indented_paragraph (lit "http://a")))
     = []
  /\ html_of_segments (lit "a" ++ blank_line ++ lit " b")
     = lit "<p>a</p><p> b</p>"
  /\ str_field "html" (fetch_article world_indented_paragraph request_a)
     = Some (lit "<p>a</p><p>b</p>")
  /\ str_field "html" (fetch_article world_indented_paragraph request_a)
     <> Some (html_of_segments (lit "a" ++ blank_line ++ lit " b")).
Proof.
  repeat split; try reflexivity.
  vm_compute. discriminate.
Qed.

Lemma html_of_paragraphs_join (t : pystr) :
  html_of_paragraphs (paragraphs t)
  = join (map (fun p => p_tag (strip p))
              (filter (fun p => truthy (strip p)) (split blank_line t))).
Proof.
  unfold html_of_paragraphs, paragraphs. rewrite map_map.
  destruct (filter _ _); reflexivity.
Qed.

(** When every surviving segment is already stripped, wrapping the segments
    as they are gives the same HTML. *)
Lemma html_of_segments_stripped (t : pystr) :
  Forall (fun p => strip p = p) (split blank_line t) ->
  html_of_paragraphs (paragraphs t) = html_of_segments t.
Proof.
  intros Hall. rewrite html_of_paragraphs_join. unfold html_of_segments.
  f_equal. apply map_ext_in. intros p Hp.
  apply filter_In in Hp. destruct Hp as [Hp _].
  rewrite Forall_forall in Hall. rewrite (Hall p Hp). reflexivity.
Qed.

(** C8, amended.  If after both strategies there is text and no HTML, the
    [html] of the result is built by splitting the text at each ["\n\n"],
    dropping the segments that are empty or only whitespace, stripping each
    remaining segment, wrapping it in a paragraph tag, and concatenating
    with no separator; if the text is empty, the [html] is empty. *)
Theorem html_synthesis (w : article_world) (req : article_request) :
  url_of req <> [] ->
  str_field "text" (fetch_article w req)
  = Some (text (vars (after_fallback w (url_of req))))
  /\ (text (vars (after_fallback w (url_of req))) <> [] ->
      html_content (vars (after_fallback w (url_of req))) = [] ->
      str_field "html" (fetch_article w req)
      = Some (join (map (fun p => lit "<p>" ++ strip p ++ lit "</p>")
                        (filter (fun p => truthy (strip p))
                                (split blank_line
                                   (text (vars (after_fallback w (url_of req)))))))))
  /\ (text (vars (after_fallback w (url_of req))) = [] ->
      str_field "html" (fetch_article w req) = Some []).
Proof.
  intros Hurl.
  set (url := url_of req) in *.
  set (s2 := vars (after_fallback w url)) in *.
  rewrite fetch_article_ok by assumption. fold url.
  unfold str_field, body_field, article_json.
  cbn [field String.eqb Ascii.eqb Bool.eqb].
  rewrite final_text. fold s2.
  split; [reflexivity |].
  rewrite final_store_steps, synthesize_run. cbn [snd]. fold s2.
  split.
  - intros Htext Hhtml. rewrite Hhtml.
    destruct (text s2) as [|c t] eqn:Ht; [contradiction |].
    cbn [truthy negb andb vars html_content set_html_content].
    rewrite html_of_paragraphs_join. reflexivity.
  - intros Htext.
    pose proof (after_fallback_html_has_text w url Htext) as Hhtml.
    fold s2 in Hhtml. rewrite Htext. cbn [truthy andb].
    fold s2. rewrite Hhtml. reflexivity.
Qed.

Lemma html_synthesis_witness :
  str_field "html" (fetch_article world_indented_paragraph request_a)
  = Some (lit "<p>a</p><p>b</p>")
  /\ str_field "html" (fetch_article world_down request_a) = Some [].
Proof.
  split.
  - refine (proj1 (proj2
              (html_synthesis world_indented_paragraph request_a _)) _ _);
      [discriminate | vm_compute; discriminate | reflexivity].
  - refine (proj2 (proj2 (html_synthesis world_down request_a _)) _);
      [discriminate | reflexivity].
Defined.

(* ================================================================== *)
(** * Facts about the string operations *)
(* ================================================================== *)

Section StripFacts.

Lemma lstrip_head (s : pystr) (c : N) (r : pystr) :
  lstrip s = c :: r -> isspace c = false.
Proof.
  induction s as [|x s IH]; cbn -[isspace]; [discriminate |].
  destruct (isspace x) eqn:Hx; [exact IH |].
  intros [= <- <-]. exact Hx.
Qed.

Lemma lstrip_fixed (c : N) (r : pystr) :
  isspace c = false -> lstrip (c :: r) = c :: r.
Proof. intros Hc. cbn -[isspace]. rewrite Hc. reflexivity. Qed.

(** [lstrip] removes a prefix made of whitespace. *)
Lemma lstrip_suffix (s : pystr) :
  exists pre, s = pre ++ lstrip s /\ forallb isspace pre = true.
Proof.
  induction s as [|x s (pre & Hs & Hpre)]; [exists []; auto |].
  cbn -[isspace]. destruct (isspace x) eqn:Hx.
  - exists (x :: pre). cbn -[isspace]. rewrite Hx, Hpre, <- Hs. auto.
  - exists []. auto.
Qed.

Lemma lstrip_keeps (s : pystr) (c : N) :
  In c s -> isspace c = false -> In c (lstrip s).
Proof.
  intros Hin Hc. destruct (lstrip_suffix s) as (pre & Hs & Hpre).
  rewrite Hs in Hin. apply in_app_or in Hin. destruct Hin as [Hin | Hin];
    [| exact Hin].
  rewrite forallb_forall in Hpre. rewrite (Hpre c Hin) in Hc. discriminate.
Qed.

(** [strip s] sits inside [lstrip s], followed by whitespace only. *)
Lemma strip_prefix (s : pystr) :
  exists post, lstrip s = strip s ++ post /\ forallb isspace post = true.
Proof.
  unfold strip, rstrip.
  destruct (lstrip_suffix (rev (lstrip s))) as (pre & Hs & Hpre).
  exists (rev pre). split.
  - rewrite <- rev_app_distr, <- Hs, rev_involutive. reflexivity.
  - rewrite forallb_forall in *. intros x Hx. apply Hpre.
    apply in_rev. exact Hx.
Qed.

Lemma strip_head (s : pystr) (c : N) (r : pystr) :
  strip s = c :: r -> isspace c = false.
Proof.
  intros Hs. destruct (strip_prefix s) as (post & Hl & _).
  rewrite Hs in Hl. cbn in Hl. exact (lstrip_head _ Hl).
Qed.

Lemma strip_last (s : pystr) (c : N) (r : pystr) :
  rev (strip s) = c :: r -> isspace c = false.
Proof.
  unfold strip, rstrip. rewrite rev_involutive. apply lstrip_head.
Qed.

Lemma strip_keeps (s : pystr) (c : N) :
  In c s -> isspace c = false -> In c (strip s).
Proof.
  intros Hin Hc. unfold strip, rstrip.
  apply in_rev. rewrite rev_involutive.
  apply lstrip_keeps; [| exact Hc].
  apply in_rev. rewrite rev_involutive.
  apply lstrip_keeps; assumption.
Qed.

Lemma rev_head_last (c : N) (r : pystr) :
  exists q, rev (c :: r) = last (c :: r) c :: q.
Proof.
  destruct (rev (c :: r)) as [|d q] eqn:Hr.
  - apply (f_equal (@length N)) in Hr. rewrite length_rev in Hr.
    discriminate.
  - exists q. f_equal.
    apply (f_equal (@rev N)) in Hr. rewrite rev_involutive in Hr.
    rewrite Hr. cbn [rev]. symmetry. apply last_last.
Qed.

(** A stripped string has no whitespace at either end. *)
Lemma strip_trimmed (s : pystr) : trimmed (strip s).
Proof.
  unfold trimmed. destruct (strip s) as [|c r] eqn:Hs; [exact I |].
  split; [exact (strip_head _ Hs) |].
  destruct (rev_head_last c r) as (q & Hq).
  rewrite <- Hs in Hq at 1. exact (strip_last _ Hq).
Qed.

(** Stripping leaves such a string as it is. *)
Lemma strip_fixed (t : pystr) : trimmed t -> strip t = t.
Proof.
  destruct t as [|c r]; [reflexivity |].
  intros [Hc Hd]. destruct (rev_head_last c r) as (q & Hq).
  unfold strip, rstrip. rewrite (@lstrip_fixed c r Hc), Hq.
  rewrite (@lstrip_fixed _ q Hd), <- Hq. apply rev_involutive.
Qed.

(** Stripping twice is stripping once. *)
Lemma strip_idempotent (s : pystr) : strip (strip s) = strip s.
Proof. apply strip_fixed, strip_trimmed. Qed.

(** A string with a code point that is not whitespace does not strip to
    nothing. *)
Lemma strip_truthy (s : pystr) (c : N) :
  In c s -> isspace c = false -> truthy (strip s) = true.
Proof.
  intros Hin Hc. pose proof (strip_keeps _ _ Hin Hc) as H.
  destruct (strip s); [contradiction | reflexivity].
Qed.

(** A stripped string that is not empty has such a code point. *)
Lemma strip_has_nonspace (s : pystr) :
  strip s <> [] -> exists c, In c (strip s) /\ isspace c = false.
Proof.
  intros Hne. destruct (strip s) as [|c r] eqn:Hs; [contradiction |].
  exists c. split; [left; reflexivity | exact (strip_head _ Hs)].
Qed.

End StripFacts.

Section SplitFacts.

Variable sep : pystr.

Lemma startswith_app (p s : pystr) :
  startswith p s = true -> s = p ++ skipn (length p) s.
Proof.
  revert s. induction p as [|x p IH]; intros s; [reflexivity |].
  destruct s as [|y s]; cbn [startswith]; [discriminate |].
  intros H. apply andb_true_iff in H. destruct H as [Hxy Hp].
  apply N.eqb_eq in Hxy. subst y. cbn [length skipn app].
  f_equal. apply IH, Hp.
Qed.

(** Passing the rest of a matched separator. *)
Lemma split_from_skip (k : nat) (cur s : pystr) :
  (k <= length s)%nat ->
  split_from sep k cur s = split_from sep 0 cur (skipn k s).
Proof.
  revert s. induction k as [|k IH]; intros s Hk; [reflexivity |].
  destruct s as [|c s]; [inversion Hk |].
  cbn [split_from skipn]. apply IH. cbn in Hk. lia.
Qed.

Lemma split_from_nonempty (k : nat) (cur s : pystr) :
  split_from sep k cur s <> [].
Proof.
  revert k cur. induction s as [|c s IH]; intros k cur; [discriminate |].
  cbn [split_from]. destruct k as [|k]; [| apply IH].
  destruct (startswith sep (c :: s)); [discriminate | apply IH].
Qed.

Lemma join_with_cons (p : pystr) (rest : list pystr) :
  rest <> [] -> join_with sep (p :: rest) = p ++ sep ++ join_with sep rest.
Proof. destruct rest; [contradiction | reflexivity]. Qed.

Hypothesis sep_nonempty : sep <> [].

(** One step of [split] at a match. *)
Lemma split_from_match (cur s : pystr) :
  startswith sep s = true ->
  split_from sep 0 cur s
  = rev cur :: split_from sep 0 [] (skipn (length sep) s).
Proof.
  intros Hm. pose proof (startswith_app _ _ Hm) as Hs.
  assert (Hlen : exists m, length sep = S m).
  { destruct sep; [contradiction | cbn; eauto]. }
  destruct Hlen as [m Hlen].
  destruct s as [|c s']; [destruct sep; [contradiction | discriminate] |].
  cbn [split_from]. rewrite Hm. f_equal.
  rewrite Hlen, Nat.sub_succ, Nat.sub_0_r. cbn [skipn].
  apply split_from_skip.
  apply (f_equal (@length N)) in Hs. rewrite length_app, Hlen in Hs.
  cbn [length] in Hs. lia.
Qed.

Lemma join_split_from (n : nat) :
  forall s cur, (length s <= n)%nat ->
    join_with sep (split_from sep 0 cur s) = rev cur ++ s.
Proof.
  induction n as [|n IH]; intros s cur Hn.
  - destruct s; [| inversion Hn]. cbn. rewrite app_nil_r. reflexivity.
  - destruct s as [|c s']; [cbn; rewrite app_nil_r; reflexivity |].
    destruct (startswith sep (c :: s')) eqn:Hm.
    + rewrite (split_from_match cur _ Hm).
      rewrite join_with_cons by apply split_from_nonempty.
      pose proof (startswith_app _ _ Hm) as Hs.
      rewrite IH.
      * cbn [rev app]. rewrite <- Hs. reflexivity.
      * apply (f_equal (@length N)) in Hs. rewrite length_app in Hs.
        assert (length sep <> 0)%nat
          by (destruct sep; [contradiction | discriminate]).
        cbn [length] in *. lia.
    + cbn [split_from]. rewrite Hm. rewrite IH by (cbn in Hn; lia).
      cbn [rev]. rewrite <- app_assoc. reflexivity.
Qed.

(** [sep.join(s.split(sep)) == s]. *)
Lemma join_split (s : pystr) : join_with sep (split sep s) = s.
Proof. unfold split. apply (join_split_from (n := length s)). apply Nat.le_refl. Qed.

Lemma in_join_with (c : N) (l : list pystr) :
  In c (join_with sep l) -> In c sep \/ exists p, In p l /\ In c p.
Proof.
  induction l as [|p rest IH]; [contradiction |].
  destruct rest as [|q rest].
  - cbn. intros H. right. exists p. auto.
  - rewrite join_with_cons by discriminate.
    intros H. apply in_app_or in H. destruct H as [H | H].
    + right. exists p. split; [left; reflexivity | exact H].
    + apply in_app_or in H. destruct H as [H | H]; [left; exact H |].
      destruct (IH H) as [Hs | (p' & Hp' & Hc)]; [left; exact Hs |].
      right. exists p'. split; [right; exact Hp' | exact Hc].
Qed.

End SplitFacts.

(* ================================================================== *)
(** * Further properties of the feed endpoint *)
(* ================================================================== *)

Section FeedMore.

Local Open Scope Z_scope.

(** X1.  The feed source asked is the url parameter when it is given and
    not empty, else the environment's [NEWS_RSS_URL], else the Hacker News
    front page; an empty url parameter counts as none.  The response depends
    on the feed sources only through the answer for that one URL. *)
Theorem news_feed_one_source (w : feed_world) (req : feed_request) :
  (forall c u, fr_url req = Some (c :: u) -> feed_url w req = c :: u)
  /\ (fr_url req = None \/ fr_url req = Some [] ->
      feed_url w req = or_default (NEWS_RSS_URL w) default_feed)
  /\ (forall w' : feed_world,
        feed_url w' req = feed_url w req ->
        feedparser_parse w' (feed_url w req) = feedparser_parse w (feed_url w req) ->
        news_feed w' req = news_feed w req).
Proof.
  split; [| split].
  - intros c u Hu. unfold feed_url. rewrite Hu. reflexivity.
  - intros [Hu | Hu]; unfold feed_url; rewrite Hu; reflexivity.
  - intros w' Hurl Hparse. unfold news_feed. rewrite Hurl, Hparse.
    reflexivity.
Qed.

Lemma news_feed_one_source_witness :
  feed_url feed_of_3 (mkFeedRequest (Some []) None) = default_feed
  /\ news_feed feed_of_52 (mkFeedRequest (Some (lit "http://f")) None)
     = news_feed (mkFeedWorld (Some (lit "http://other"))
                              (feedparser_parse feed_of_52))
                 (mkFeedRequest (Some (lit "http://f")) None).
Proof.
  split.
  - refine (proj1 (proj2 (news_feed_one_source feed_of_3
                            (mkFeedRequest (Some []) None))) _).
    right. reflexivity.
  - refine (proj2 (proj2 (news_feed_one_source
                            (mkFeedWorld (Some (lit "http://other"))
                                         (feedparser_parse feed_of_52))
                            (mkFeedRequest (Some (lit "http://f")) None)))
                  feed_of_52 _ _); reflexivity.
Defined.

(** X2.  When the limit is acceptable and [feedparser.parse] raises, the
    answer is 502 and its body is the [error] field holding the text of the
    exception, nothing else. *)
Theorem news_feed_parse_raises (w : feed_world) (req : feed_request)
        (lim : Z) (e : exn) :
  limit req = Some lim ->
  feedparser_parse w (feed_url w req) = inl e ->
  news_feed w req = Response 502 (JObj [("error", JStr (exn_str e))])
  /\ item_count (news_feed w req) = None.
Proof.
  intros Hlim He. unfold news_feed. rewrite Hlim, He. split; reflexivity.
Qed.

Lemma news_feed_parse_raises_witness :
  news_feed feed_unreachable (mkFeedRequest None None)
  = Response 502 (JObj [("error", JStr (lit "connection refused"))]).
Proof.
  apply (news_feed_parse_raises feed_unreachable (mkFeedRequest None None)
           (lim := 20)
           (e := mkExn RequestException (lit "connection refused")));
    reflexivity.
Defined.

(** X3.  The three ways a feed request ends.  An exception leaves the
    handler only as [ValueError], and only when the limit does not convert;
    the status is 502 exactly when the limit converts and the parse raised
    or reported a problem with no entry; it is 200 exactly when the limit
    converts and the parse returned entries or reported no problem (an
    empty feed without a reported problem is answered 200). *)
Theorem news_feed_status (w : feed_world) (req : feed_request) :
  (forall e, news_feed w req = Unhandled e -> e = ValueError)
  /\ (status_of (news_feed w req) = None <-> limit req = None)
  /\ (status_of (news_feed w req) = Some 502%nat <->
      limit req <> None
      /\ ((exists e, feedparser_parse w (feed_url w req) = inl e)
          \/ (exists p, feedparser_parse w (feed_url w req) = inr p
                        /\ bozo p = true /\ entries p = [])))
  /\ (status_of (news_feed w req) = Some 200%nat <->
      limit req <> None
      /\ (exists p, feedparser_parse w (feed_url w req) = inr p
                    /\ (bozo p = false \/ entries p <> []))).
Proof.
  unfold news_feed.
  destruct (limit req) as [lim|].
  2:{ cbn. repeat split; try congruence; try discriminate;
      intros [H _]; congruence. }
  destruct (feedparser_parse w (feed_url w req)) as [e|p].
  { cbn. repeat split; try congruence; try discriminate; eauto.
    intros [_ (p & Hp & _)]. discriminate. }
  destruct (bozo p) eqn:Hb; destruct (entries p) as [|x xs] eqn:He; cbn.
  - repeat split; try congruence; try discriminate.
    + right. exists p. auto.
    + intros [_ (p' & [= <-] & [H | H])]; congruence.
  - repeat split; try congruence; try discriminate.
    + intros [_ [(e & H) | (p' & [= <-] & _ & H)]]; congruence.
    + exists p. split; [reflexivity | right; congruence].
  - repeat split; try congruence; try discriminate.
    + intros [_ [(e & H) | (p' & [= <-] & H & _)]]; congruence.
    + exists p. auto.
  - repeat split; try congruence; try discriminate.
    + intros [_ [(e & H) | (p' & [= <-] & H & _)]]; congruence.
    + exists p. auto.
Qed.

Lemma firstn_length_firstn (A : Type) (k : nat) (l : list A) :
  firstn (length (firstn k l)) l = firstn k l.
Proof.
  rewrite length_firstn.
  destruct (Nat.le_ge_cases k (length l)) as [H | H].
  - rewrite Nat.min_l by assumption. reflexivity.
  - rewrite Nat.min_r by assumption.
    rewrite firstn_all, firstn_all2 by assumption. reflexivity.
Qed.

Lemma slice_to_prefix (A : Type) (l : list A) (n : Z) :
  slice_to l n = firstn (length (slice_to l n)) l.
Proof.
  unfold slice_to. destruct (0 <=? n); symmetry; apply firstn_length_firstn.
Qed.

(** X4.  The items of a response are the normalised entries of the feed in
    the feed's order, from the first one on with none left out in between:
    they are the items of the first [k] entries, [k] being their number. *)
Theorem news_feed_items_in_feed_order (w : feed_world) (req : feed_request)
        (l : list json) :
  body_field "items" (news_feed w req) = Some (JArr l) ->
  exists p,
    feedparser_parse w (feed_url w req) = inr p
    /\ (length l <= length (entries p))%nat
    /\ l = map item_of (firstn (length l) (entries p)).
Proof.
  unfold news_feed. destruct (limit req) as [lim|]; [| discriminate].
  destruct (feedparser_parse w (feed_url w req)) as [e|p]; [discriminate |].
  destruct (bozo p && is_nil (entries p))%bool; [discriminate |].
  cbn. intros [= <-]. exists p. split; [reflexivity |].
  unfold items. rewrite length_map. split.
  - rewrite slice_to_prefix, length_firstn. apply Nat.le_min_r.
  - f_equal. apply slice_to_prefix.
Qed.

Lemma news_feed_items_in_feed_order_witness :
  exists p,
    feedparser_parse feed_of_3 (feed_url feed_of_3 (mkFeedRequest None (Some (lit "2"))))
    = inr p
    /\ (2 <= length (entries p))%nat
    /\ [item_of bare_entry; item_of bare_entry]
       = map item_of (firstn 2 (entries p)).
Proof.
  apply (news_feed_items_in_feed_order feed_of_3
           (mkFeedRequest None (Some (lit "2")))
           (l := [item_of bare_entry; item_of bare_entry])).
  reflexivity.
Defined.

Lemma limit_le_50 (req : feed_request) (lim : Z) :
  limit req = Some lim -> lim <= 50.
Proof.
  unfold limit. destruct (fr_limit req) as [s|].
  - destruct (py_int s) as [n|]; cbn; [| discriminate].
    intros [= <-]. lia.
  - intros [= <-]. lia.
Qed.

(** X5.  With a limit that is not negative, the number of items is the
    smaller of the limit (20 when none is given, never above 50) and the
    number of entries of the feed; so it is at most 50. *)
Theorem news_feed_count (w : feed_world) (req : feed_request)
        (lim : Z) (k : nat) :
  limit req = Some lim -> 0 <= lim ->
  item_count (news_feed w req) = Some k ->
  lim <= 50
  /\ (k <= 50)%nat
  /\ exists p, feedparser_parse w (feed_url w req) = inr p
               /\ k = Nat.min (Z.to_nat lim) (length (entries p)).
Proof.
  intros Hlim Hpos Hk.
  pose proof (limit_le_50 _ Hlim) as H50.
  destruct (news_feed_items _ _ Hk) as (lim' & p & Hlim' & Hp & ->).
  rewrite Hlim in Hlim'. injection Hlim' as <-.
  rewrite slice_to_nonneg by assumption. rewrite length_firstn.
  split; [exact H50 |]. split; [lia |].
  exists p. auto.
Qed.

Lemma news_feed_count_witness :
  (20 <= 50)%Z
  /\ (3 <= 50)%nat
  /\ exists p, feedparser_parse feed_of_3 (feed_url feed_of_3 (mkFeedRequest None None))
               = inr p
               /\ 3%nat = Nat.min (Z.to_nat 20) (length (entries p)).
Proof.
  apply (news_feed_count feed_of_3 (mkFeedRequest None None) (lim := 20)
           (k := 3%nat)); [reflexivity | lia | reflexivity].
Defined.

End FeedMore.

Section FeedItems.

Lemma first_truthy_skip (o : option pystr) (rest : list (option pystr)) :
  falsy o -> first_truthy (o :: rest) = first_truthy rest.
Proof. intros [-> | ->]; reflexivity. Qed.

Lemma first_truthy_take (s : pystr) (rest : list (option pystr)) :
  s <> [] -> first_truthy (Some s :: rest) = s.
Proof. destruct s; [contradiction | reflexivity]. Qed.

Lemma falsy_dec (o : option pystr) : falsy o \/ exists s, o = Some s /\ s <> [].
Proof.
  destruct o as [[|c s]|]; unfold falsy; auto.
  right. exists (c :: s). split; [reflexivity | discriminate].
Qed.

(** X6.  [published] is the first of the entry's [published], [updated] and
    [created] that is present and not empty, taken as it is; it is empty
    exactly when none of the three is. *)
Theorem published_first_nonempty (e : entry) :
  (forall s, e_published e = Some s -> s <> [] -> published e = s)
  /\ (forall s, falsy (e_published e) -> e_updated e = Some s -> s <> [] ->
                published e = s)
  /\ (forall s, falsy (e_published e) -> falsy (e_updated e) ->
                e_created e = Some s -> published e = s)
  /\ (published e = [] <->
      falsy (e_published e) /\ falsy (e_updated e) /\ falsy (e_created e)).
Proof.
  unfold published. split; [| split; [| split]].
  - intros s -> Hs. apply first_truthy_take, Hs.
  - intros s Hp -> Hs. rewrite first_truthy_skip by assumption.
    apply first_truthy_take, Hs.
  - intros s Hp Hu ->. rewrite !first_truthy_skip by assumption.
    destruct s; reflexivity.
  - split.
    + intros H.
      destruct (falsy_dec (e_published e)) as [Hp | (s & Hs & Hne)].
      2:{ rewrite Hs, first_truthy_take in H by assumption. contradiction. }
      rewrite first_truthy_skip in H by assumption.
      destruct (falsy_dec (e_updated e)) as [Hu | (s & Hs & Hne)].
      2:{ rewrite Hs, first_truthy_take in H by assumption. contradiction. }
      rewrite first_truthy_skip in H by assumption.
      destruct (falsy_dec (e_created e)) as [Hc | (s & Hs & Hne)]; [auto |].
      rewrite Hs, first_truthy_take in H by assumption. contradiction.
    + intros (Hp & Hu & Hc). rewrite !first_truthy_skip by assumption.
      reflexivity.
Qed.

Lemma published_first_nonempty_witness :
  published odd_entry = lit "2024-01-02".
Proof.
  refine (proj1 (proj2 (published_first_nonempty odd_entry))
                (lit "2024-01-02") _ _ _);
    [right; reflexivity | reflexivity | discriminate].
Defined.

(** X7.  [thumbnail] comes from the first element of [media_thumbnail] when
    that list is present and not empty, even when the element holds no URL
    (the thumbnail is then empty and [media_content] is not looked at);
    otherwise from the first element of [media_content]; otherwise it is
    empty. *)
Theorem thumbnail_precedence (e : entry) :
  (forall m ms, e_media_thumbnail e = Some (m :: ms) ->
                thumbnail e = or_default (m_url m) [])
  /\ (forall m ms, no_media (e_media_thumbnail e) ->
                   e_media_content e = Some (m :: ms) ->
                   thumbnail e = or_default (m_url m) [])
  /\ (no_media (e_media_thumbnail e) -> no_media (e_media_content e) ->
      thumbnail e = []).
Proof.
  unfold thumbnail. split; [| split].
  - intros m ms ->. reflexivity.
  - intros m ms [-> | ->] ->; reflexivity.
  - intros [-> | ->] [-> | ->]; reflexivity.
Qed.

Lemma thumbnail_precedence_witness : thumbnail odd_entry = [].
Proof.
  apply (proj1 (thumbnail_precedence odd_entry) (mkMedia None) []).
  reflexivity.
Defined.

Lemma description_length (e : entry) : (length (description e) <= 2000)%nat.
Proof.
  unfold description, take.
  destruct (e_content e) as [[|c cs]|];
    try (rewrite length_firstn; apply Nat.le_min_l);
    destruct (e_summary e) as [s|];
    try (rewrite length_firstn; apply Nat.le_min_l);
    destruct (e_description e) as [d|];
    try (rewrite length_firstn; apply Nat.le_min_l);
    cbn; apply Nat.le_0_l.
Qed.

(** X8.  Every item of a feed response is an object with exactly the six
    keys title, link, published, description, thumbnail and author, each
    holding a string, and its description has at most 2000 code points. *)
Theorem news_feed_item_shape (w : feed_world) (req : feed_request)
        (l : list json) (it : json) :
  body_field "items" (news_feed w req) = Some (JArr l) ->
  In it l ->
  exists fs,
    it = JObj fs
    /\ length fs = 6%nat
    /\ (forall k, In k item_keys -> exists s, field k fs = Some (JStr s))
    /\ (forall d, field "description" fs = Some (JStr d) ->
                  (length d <= 2000)%nat).
Proof.
  unfold news_feed. destruct (limit req) as [lim|]; [| discriminate].
  destruct (feedparser_parse w (feed_url w req)) as [e|p]; [discriminate |].
  destruct (bozo p && is_nil (entries p))%bool; [discriminate |].
  cbn. intros [= <-] Hin. unfold items in Hin.
  apply in_map_iff in Hin. destruct Hin as (en & <- & _).
  unfold item_of. eexists. split; [reflexivity |].
  split; [reflexivity |]. split.
  - intros k Hk. unfold item_keys in Hk.
    repeat (destruct Hk as [<- | Hk]; [eexists; reflexivity |]).
    contradiction.
  - cbn [field String.eqb Ascii.eqb Bool.eqb]. intros d [= <-].
    apply description_length.
Qed.

Lemma news_feed_item_shape_witness :
  exists fs,
    item_of rich_entry = JObj fs
    /\ length fs = 6%nat
    /\ (forall k, In k item_keys -> exists s, field k fs = Some (JStr s))
    /\ (forall d, field "description" fs = Some (JStr d) ->
                  (length d <= 2000)%nat).
Proof.
  apply (@news_feed_item_shape bozo_feed_of_2 (mkFeedRequest None None)
           [item_of rich_entry; item_of bare_entry]).
  - reflexivity.
  - left. reflexivity.
Defined.

End FeedItems.

Section LimitDigits.

Local Open Scope Z_scope.

Lemma all_digits_cons (c : N) (s : pystr) :
  all_digits (c :: s) = true ->
  (48 <= c)%N /\ (c <= 57)%N /\ all_digits s = true.
Proof.
  unfold all_digits. cbn [forallb]. intros H.
  apply andb_true_iff in H. destruct H as [Hc Hs].
  apply andb_true_iff in Hc. destruct Hc as [Hlo Hhi].
  apply N.leb_le in Hlo, Hhi. auto.
Qed.

Lemma parse_digits_value (s : pystr) :
  all_digits s = true ->
  forall acc b, (s <> [] \/ b = true) ->
    parse_digits acc b s = Some (fold_left (fun a c => 10 * a + (Z.of_N c - 48)) s acc).
Proof.
  induction s as [|c s IH]; intros Hd acc b Hne.
  - destruct Hne as [Hne | ->]; [contradiction | reflexivity].
  - apply all_digits_cons in Hd. destruct Hd as (Hlo & Hhi & Hs).
    cbn [parse_digits fold_left]. unfold digit_value.
    apply N.leb_le in Hlo, Hhi. rewrite Hlo, Hhi. cbn [andb].
    apply IH; auto.
Qed.

Lemma digit_count_le (s : pystr) : (digit_count s <= N.of_nat (length s))%N.
Proof.
  unfold digit_count.
  match goal with
  | |- (N.of_nat (length (filter ?f s)) <= _)%N =>
      pose proof (filter_length_le f s)
  end.
  lia.
Qed.

(** X9.  A limit whose literal (the parameter without the whitespace
    [int()] passes over at its ends) is made of ASCII digits, at most 4300
    of them, converts to the number the digits write in base 10, leading
    zeros included; the limit used is that number or 50, whichever is
    smaller, and is never negative. *)
Theorem limit_of_digits (req : feed_request) (t s : pystr) :
  fr_limit req = Some t -> int_strip t = s -> s <> [] ->
  all_digits s = true -> (length s <= 4300)%nat ->
  py_int t = Some (decimal_value s)
  /\ limit req = Some (Z.min (decimal_value s) 50)
  /\ 0 <= decimal_value s.
Proof.
  intros Ht Hs Hne Hd Hlen.
  assert (Hint : py_int t = Some (decimal_value s)).
  { unfold py_int. rewrite Hs. destruct s as [|c r]; [contradiction |].
    pose proof (all_digits_cons _ _ Hd) as (Hlo & Hhi & _).
    destruct (N.eqb_spec c 45); [lia |].
    destruct (N.eqb_spec c 43); [lia |].
    cbn [orb].
    assert (Hcap : (max_str_digits <? digit_count (c :: r))%N = false).
    { apply N.ltb_ge. etransitivity; [apply digit_count_le |].
      unfold max_str_digits. lia. }
    rewrite Hcap.
    apply parse_digits_value; [exact Hd | left; discriminate]. }
  split; [exact Hint |]. split.
  - unfold limit. rewrite Ht, Hint. reflexivity.
  - unfold decimal_value.
    assert (Hge : forall l acc, all_digits l = true -> 0 <= acc ->
                    0 <= fold_left (fun a c => 10 * a + (Z.of_N c - 48)) l acc).
    { induction l as [|c l IH]; intros acc Hl Hacc; [exact Hacc |].
      apply all_digits_cons in Hl. destruct Hl as (Hlo & Hhi & Hl).
      cbn [fold_left]. apply IH; [exact Hl | lia]. }
    apply Hge; [exact Hd | lia].
Qed.

Lemma limit_of_digits_witness :
  py_int (lit " 007 ") = Some 7
  /\ limit (mkFeedRequest None (Some (lit " 007 "))) = Some (Z.min 7 50)
  /\ 0 <= 7.
Proof.
  apply (limit_of_digits (mkFeedRequest None (Some (lit " 007 ")))
           (t := lit " 007 ") (s := lit "007"));
    [reflexivity | reflexivity | discriminate | reflexivity | cbn; lia].
Defined.

End LimitDigits.

(* ================================================================== *)
(** * Further properties of the article endpoint *)
(* ================================================================== *)

Section ArticleMore.

Variable w : article_world.
Variable url : pystr.

(** Attempt 1 asks the primary strategy only. *)
Lemma primary_same (w' : article_world) (st : store) :
  newspaper_parse w' url = newspaper_parse w url ->
  primary w' url st = primary w url st.
Proof.
  intros H. unfold primary, primary_body, try_except, bind, call.
  rewrite H. reflexivity.
Qed.

(** The text attempt 1 leaves is a stripped string. *)
Lemma primary_text_stripped : exists s, primary_text w url = strip s.
Proof.
  unfold primary_text, after_primary, primary, primary_body, try_except,
         bind, call, method, assign, ret, pass.
  cbn [init_store vars started].
  destruct (newspaper_parse w url) as [e|a]; cbn -[strip].
  - exists []. destruct e; reflexivity.
  - exists (or_else (art_text a) []).
    destruct (art_publish_date a) as [d|]; cbn -[strip]; [| reflexivity].
    destruct (isoformat d) as [e|iso]; cbn -[strip]; [destruct e |];
      reflexivity.
Qed.

Lemma fallback_wins_authors (s : locals) (r : option pystr * soup) :
  authors (fallback_wins s r) = authors s
  /\ publish_date (fallback_wins s r) = publish_date s.
Proof.
  unfold fallback_wins. cbn -[startswith].
  destruct (truthy (title s)); cbn -[startswith];
    destruct (truthy (top_image s)); cbn -[startswith]; auto;
    destruct (adopted_img_src (imgs (snd r))); auto.
Qed.

Lemma fallback_wins_title (s : locals) (r : option pystr * soup) :
  title (fallback_wins s r)
  = if truthy (title s) then title s else or_else (fst r) [].
Proof.
  unfold fallback_wins. cbn -[startswith].
  destruct (truthy (title s)); cbn -[startswith];
    destruct (truthy (top_image s)); cbn -[startswith]; auto;
    destruct (adopted_img_src (imgs (snd r))); auto.
Qed.

Lemma fallback_wins_top_image_kept (s : locals) (r : option pystr * soup) :
  top_image s <> [] -> top_image (fallback_wins s r) = top_image s.
Proof.
  intros Hne. unfold fallback_wins. cbn -[startswith].
  destruct (top_image s) as [|c t] eqn:Ht; [contradiction |].
  destruct (truthy (title s)); cbn -[startswith]; rewrite Ht; cbn;
    exact Ht.
Qed.

(** The locals after attempt 2: the fallback's when it won, else those
    attempt 1 left. *)
Lemma after_fallback_vars :
  (forall r, fallback_won w url r ->
     vars (after_fallback w url) = fallback_wins (vars (after_primary w url)) r)
  /\ ((forall r, ~ fallback_won w url r) ->
      vars (after_fallback w url) = vars (after_primary w url)).
Proof.
  rewrite after_fallback_steps, fallback_run. cbn [snd].
  unfold fallback_won, primary_text. split.
  - intros r (Hshort & Hr & Hlong).
    apply Nat.ltb_lt in Hshort, Hlong. rewrite Hshort, Hr, Hlong.
    reflexivity.
  - intros Hno.
    destruct (Nat.ltb_spec (length (text (vars (after_primary w url)))) 100)
      as [Hshort | _]; [| reflexivity].
    cbn [vars].
    destruct (readability_soup w url) as [e|r] eqn:Hr; [reflexivity |].
    destruct (Nat.ltb_spec (length (text (vars (after_primary w url))))
                           (length (strip (get_text (snd r)))))
      as [Hlong | _]; [| reflexivity].
    exfalso. apply (Hno r). auto.
Qed.

(** Either the fallback won with some answer, or it did not win. *)
Lemma fallback_won_dec :
  (exists r, fallback_won w url r) \/ (forall r, ~ fallback_won w url r).
Proof.
  unfold fallback_won.
  destruct (Nat.ltb_spec (length (primary_text w url)) 100) as [Hs | Hs].
  2:{ right. intros r (H & _). lia. }
  destruct (readability_soup w url) as [e|r] eqn:Hr.
  { right. intros r (_ & H & _). discriminate. }
  destruct (Nat.ltb_spec (length (primary_text w url))
                         (length (strip (get_text (snd r))))) as [Hl | Hl].
  - left. exists r. auto.
  - right. intros r' (_ & [= <-] & H). lia.
Qed.

(** The text after attempt 2 is a stripped string too. *)
Lemma after_fallback_text_stripped :
  exists s, text (vars (after_fallback w url)) = strip s.
Proof.
  destruct fallback_won_dec as [(r & Hr) | Hno].
  - rewrite (proj1 after_fallback_vars r Hr), fallback_wins_text. eauto.
  - rewrite (proj2 after_fallback_vars Hno). apply primary_text_stripped.
Qed.

(** The last step changes the HTML only. *)
Lemma final_vars :
  vars (final_store w url)
  = set_html_content (html_content (vars (final_store w url)))
                     (vars (after_fallback w url)).
Proof.
  rewrite final_store_steps, synthesize_run. cbn [snd].
  destruct (truthy _ && negb _); cbn; [reflexivity |].
  destruct (vars (after_fallback w url)); reflexivity.
Qed.

Lemma final_html :
  html_content (vars (final_store w url))
  = if truthy (text (vars (after_fallback w url)))
       && negb (truthy (html_content (vars (after_fallback w url))))
    then html_of_paragraphs (paragraphs (text (vars (after_fallback w url))))
    else html_content (vars (after_fallback w url)).
Proof.
  rewrite final_store_steps, synthesize_run. cbn [snd].
  destruct (truthy _ && negb _); reflexivity.
Qed.

End ArticleMore.

(** X10.  Every article request that is not answered 400 runs the primary
    strategy first and once; it runs the fallback strategy after it, once,
    when the text the primary left has fewer than 100 code points, and not
    at all otherwise.  No strategy is run a second time. *)
Theorem strategies_started (w : article_world) (url : pystr) :
  started (final_store w url)
  = Primary :: (if (length (primary_text w url) <? 100)%nat
                then [Fallback] else [])
  /\ (length (started (final_store w url)) <= 2)%nat.
Proof.
  rewrite final_started, after_fallback_steps, fallback_run. cbn [snd].
  unfold primary_text.
  destruct (length (text (vars (after_primary w url))) <? 100)%nat;
    cbn [started]; rewrite after_primary_started; split;
    try reflexivity; cbn; lia.
Qed.

(** X11.  A fallback that does not win leaves no trace: when the primary's
    text has 100 code points or more, or the fallback raises, or its text is
    not strictly longer than the primary's, the response is the one the
    request gets when the fallback fails outright. *)
Theorem losing_fallback_is_ignored (w : article_world) (req : article_request)
        (e : exn_class) :
  (forall r, ~ fallback_won w (url_of req) r) ->
  fetch_article w req = fetch_article (without_fallback w e) req.
Proof.
  intros Hno. destruct (url_of req) as [|c u] eqn:Hu.
  { rewrite !fetch_article_400 by assumption. reflexivity. }
  assert (Hne : url_of req <> []) by (rewrite Hu; discriminate).
  rewrite !fetch_article_ok by assumption. rewrite Hu in *.
  set (url := c :: u) in *.
  assert (Hp : after_primary (without_fallback w e) url = after_primary w url).
  { unfold after_primary. rewrite (@primary_same w url (without_fallback w e));
      reflexivity. }
  assert (Hno' : forall r, ~ fallback_won (without_fallback w e) url r).
  { intros r (_ & H & _). discriminate. }
  assert (Hv : vars (after_fallback (without_fallback w e) url)
               = vars (after_fallback w url)).
  { rewrite (proj2 (after_fallback_vars _ url) Hno).
    rewrite (proj2 (after_fallback_vars _ url) Hno'), Hp. reflexivity. }
  do 2 f_equal.
  rewrite (final_vars w url), (final_vars (without_fallback w e) url).
  rewrite !final_html, Hv. reflexivity.
Qed.

Lemma losing_fallback_is_ignored_witness :
  fetch_article world_long_primary request_a
  = fetch_article (without_fallback world_long_primary ImportError) request_a
  /\ fetch_article world_tie request_a
     = fetch_article (without_fallback world_tie RequestException) request_a.
Proof.
  split.
  - apply (@losing_fallback_is_ignored world_long_primary request_a ImportError).
    intros r (H & _). vm_compute in H. lia.
  - apply (@losing_fallback_is_ignored world_tie request_a RequestException).
    intros r (_ & Hr & H). injection Hr as <-. vm_compute in H. lia.
Defined.

(** X12.  The authors and the publish date of a result are those the
    primary strategy left; the fallback never sets them, also when its text
    wins. *)
Theorem authors_and_date_from_primary (w : article_world)
        (req : article_request) :
  url_of req <> [] ->
  body_field "authors" (fetch_article w req)
  = Some (JArr (map JStr (authors (vars (after_primary w (url_of req))))))
  /\ str_field "publish_date" (fetch_article w req)
     = Some (publish_date (vars (after_primary w (url_of req)))).
Proof.
  intros Hne. rewrite fetch_article_ok by assumption.
  set (url := url_of req).
  unfold str_field, body_field, article_json.
  cbn [field String.eqb Ascii.eqb Bool.eqb].
  rewrite (final_vars w url). cbn [authors publish_date set_html_content].
  destruct (fallback_won_dec w url) as [(r & Hr) | Hno].
  - rewrite (proj1 (after_fallback_vars w url) r Hr).
    destruct (fallback_wins_authors (vars (after_primary w url)) r) as [-> ->].
    split; reflexivity.
  - rewrite (proj2 (after_fallback_vars w url) Hno). split; reflexivity.
Qed.

Lemma authors_and_date_from_primary_witness :
  body_field "authors" (fetch_article world_short_primary request_a)
  = Some (JArr [JStr (lit "Ann")])
  /\ str_field "publish_date" (fetch_article world_short_primary request_a)
     = Some (lit "2024-01-02T03:04:05").
Proof.
  apply (authors_and_date_from_primary world_short_primary request_a).
  discriminate.
Defined.

(** X13.  A title the primary strategy found is never replaced.  When it
    found none and the fallback's text wins, the title is the fallback's
    guess, or empty when there is no guess. *)
Theorem title_policy (w : article_world) (req : article_request) :
  url_of req <> [] ->
  (title (vars (after_primary w (url_of req))) <> [] ->
   str_field "title" (fetch_article w req)
   = Some (title (vars (after_primary w (url_of req)))))
  /\ (forall r, fallback_won w (url_of req) r ->
        title (vars (after_primary w (url_of req))) = [] ->
        str_field "title" (fetch_article w req) = Some (or_else (fst r) []))
  /\ ((forall r, ~ fallback_won w (url_of req) r) ->
      str_field "title" (fetch_article w req)
      = Some (title (vars (after_primary w (url_of req))))).
Proof.
  intros Hne. rewrite fetch_article_ok by assumption.
  set (url := url_of req).
  unfold str_field, body_field, article_json.
  cbn [field String.eqb Ascii.eqb Bool.eqb].
  rewrite (final_vars w url). cbn [title set_html_content].
  split; [| split].
  - intros Ht.
    destruct (fallback_won_dec w url) as [(r & Hr) | Hno].
    + rewrite (proj1 (after_fallback_vars w url) r Hr), fallback_wins_title.
      destruct (title (vars (after_primary w url))); [contradiction |].
      reflexivity.
    + rewrite (proj2 (after_fallback_vars w url) Hno). reflexivity.
  - intros r Hr Ht.
    rewrite (proj1 (after_fallback_vars w url) r Hr), fallback_wins_title, Ht.
    reflexivity.
  - intros Hno. rewrite (proj2 (after_fallback_vars w url) Hno). reflexivity.
Qed.

Lemma title_policy_witness :
  str_field "title" (fetch_article world_short_primary request_a)
  = Some (lit "Title")
  /\ str_field "title" (fetch_article world_relative_image_first request_a)
     = Some (lit "Guess").
Proof.
  split.
  - refine (proj1 (title_policy world_short_primary request_a _) _);
      discriminate.
  - refine (proj1 (proj2 (title_policy world_relative_image_first request_a _))
              (Some (lit "Guess"),
               mkSoup (lit "Body text")
                      (lit "<div><img src='/a.png'/><img src='http://x/b.png'/>Body text</div>")
                      [Some (lit "/a.png"); Some (lit "http://x/b.png")])
              _ _);
      [discriminate | | reflexivity].
    split; [vm_compute; lia | split; [reflexivity | vm_compute; lia]].
Defined.

Lemma adopted_img_src_http (l : list (option pystr)) (src : pystr) :
  adopted_img_src l = Some src -> startswith (lit "http") src = true.
Proof.
  unfold adopted_img_src. destruct (find_img_src l) as [s|]; [| discriminate].
  destruct (startswith (lit "http") s) eqn:Hs; [| discriminate].
  intros [= <-]. exact Hs.
Qed.

(** X14.  A lead image the primary strategy found is never replaced,
    whatever it is.  A lead image that is not the primary's comes from the
    fallback and begins with ["http"]. *)
Theorem top_image_policy (w : article_world) (req : article_request) :
  url_of req <> [] ->
  (top_image (vars (after_primary w (url_of req))) <> [] ->
   str_field "top_image" (fetch_article w req)
   = Some (top_image (vars (after_primary w (url_of req)))))
  /\ (forall t, str_field "top_image" (fetch_article w req) = Some t ->
                t <> top_image (vars (after_primary w (url_of req))) ->
                startswith (lit "http") t = true
                /\ exists r, fallback_won w (url_of req) r).
Proof.
  intros Hne. rewrite fetch_article_ok by assumption.
  set (url := url_of req).
  unfold str_field, body_field, article_json.
  cbn [field String.eqb Ascii.eqb Bool.eqb].
  rewrite (final_vars w url). cbn [top_image set_html_content].
  split.
  - intros Ht.
    destruct (fallback_won_dec w url) as [(r & Hr) | Hno].
    + rewrite (proj1 (after_fallback_vars w url) r Hr).
      rewrite fallback_wins_top_image_kept by assumption. reflexivity.
    + rewrite (proj2 (after_fallback_vars w url) Hno). reflexivity.
  - intros t Ht Hdiff. injection Ht as Ht.
    destruct (fallback_won_dec w url) as [(r & Hr) | Hno].
    2:{ rewrite (proj2 (after_fallback_vars w url) Hno) in Ht. congruence. }
    split; [| eauto].
    rewrite (proj1 (after_fallback_vars w url) r Hr) in Ht.
    destruct (top_image (vars (after_primary w url))) as [|c p] eqn:Hp.
    + rewrite fallback_wins_top_image in Ht by assumption.
      destruct (adopted_img_src (imgs (snd r))) as [src|] eqn:Ha;
        [| congruence].
      subst t. apply (adopted_img_src_http _ Ha).
    + rewrite fallback_wins_top_image_kept in Ht by (rewrite Hp; discriminate).
      congruence.
Qed.

Lemma top_image_policy_witness :
  str_field "top_image" (fetch_article world_short_primary request_a)
  = Some (lit "/lead.png").
Proof.
  refine (proj1 (top_image_policy world_short_primary request_a _) _);
    discriminate.
Defined.

(** X15.  When the fallback's text wins and the cleaned fragment serialises
    to a non-empty string, the [html] of the result is that string as it
    is: nothing is built from the text. *)
Theorem html_from_fallback (w : article_world) (req : article_request)
        (r : option pystr * soup) :
  url_of req <> [] ->
  fallback_won w (url_of req) r ->
  soup_str (snd r) <> [] ->
  str_field "html" (fetch_article w req) = Some (soup_str (snd r))
  /\ str_field "text" (fetch_article w req) = Some (strip (get_text (snd r))).
Proof.
  intros Hne Hr Hs. rewrite fetch_article_ok by assumption.
  set (url := url_of req) in *.
  unfold str_field, body_field, article_json.
  cbn [field String.eqb Ascii.eqb Bool.eqb].
  rewrite final_text, final_html.
  rewrite (proj1 (after_fallback_vars w url) r Hr).
  rewrite fallback_wins_html, fallback_wins_text.
  destruct (soup_str (snd r)); [contradiction |].
  cbn [truthy negb]. rewrite andb_false_r. split; reflexivity.
Qed.

Lemma html_from_fallback_witness :
  str_field "html" (fetch_article world_short_primary request_a)
  = Some (lit "<div>a longer body</div>")
  /\ str_field "text" (fetch_article world_short_primary request_a)
     = Some (lit "a longer body").
Proof.
  apply (@html_from_fallback world_short_primary request_a
           (Some (lit "Other"),
            mkSoup (lit "a longer body") (lit "<div>a longer body</div>")
                   [Some (lit "http://x/other.png")])).
  - discriminate.
  - split; [vm_compute; lia | split; [reflexivity | vm_compute; lia]].
  - discriminate.
Defined.

Section ParagraphFacts.

Lemma lstrip_subset (s : pystr) (c : N) : In c (lstrip s) -> In c s.
Proof.
  intros H. destruct (lstrip_suffix s) as (pre & Hs & _).
  rewrite Hs. apply in_or_app. right. exact H.
Qed.

Lemma strip_subset (s : pystr) (c : N) : In c (strip s) -> In c s.
Proof.
  intros H. apply lstrip_subset.
  destruct (strip_prefix s) as (post & Hs & _).
  rewrite Hs. apply in_or_app. left. exact H.
Qed.

Lemma forallb_false (f : N -> bool) (l : pystr) :
  forallb f l = false -> exists x, In x l /\ f x = false.
Proof.
  induction l as [|x l IH]; cbn; [discriminate |].
  destruct (f x) eqn:Hx; cbn.
  - intros H. destruct (IH H) as (y & Hy & Hf). exists y. auto.
  - intros _. exists x. auto.
Qed.

Lemma in_piece_join_with (sep : pystr) (l : list pystr) (p : pystr) (c : N) :
  In p l -> In c p -> In c (join_with sep l).
Proof.
  induction l as [|q rest IH]; [contradiction |].
  intros Hp Hc. destruct rest as [|q' rest'].
  - destruct Hp as [<- | []]. exact Hc.
  - rewrite join_with_cons by discriminate.
    apply in_or_app. destruct Hp as [<- | Hp]; [left; exact Hc |].
    right. apply in_or_app. right. apply IH; assumption.
Qed.

Lemma blank_line_nonempty : blank_line <> [].
Proof. discriminate. Qed.

(** A code point of the text that is not whitespace is in a piece. *)
Lemma split_keeps_nonspace (t : pystr) (c : N) :
  In c t -> isspace c = false ->
  exists p, In p (split blank_line t) /\ In c p.
Proof.
  intros Hin Hc.
  rewrite <- (join_split blank_line_nonempty t) in Hin.
  apply in_join_with in Hin. destruct Hin as [Hsep | H]; [| exact H].
  destruct Hsep as [<- | [<- | []]]; discriminate.
Qed.

(** The code points of a piece are code points of the text. *)
Lemma split_subset (t p : pystr) (c : N) :
  In p (split blank_line t) -> In c p -> In c t.
Proof.
  intros Hp Hc. rewrite <- (join_split blank_line_nonempty t).
  apply in_piece_join_with with (p := p); assumption.
Qed.

Lemma split_from_no_match (sep s : pystr) :
  occurs sep s = false ->
  forall cur, split_from sep 0 cur s = [rev cur ++ s].
Proof.
  induction s as [|c s IH]; intros Hocc cur.
  - cbn. rewrite app_nil_r. reflexivity.
  - cbn [occurs] in Hocc. apply orb_false_iff in Hocc.
    destruct Hocc as [Hm Hocc]. cbn [split_from]. rewrite Hm.
    rewrite IH by assumption. cbn [rev]. rewrite <- app_assoc. reflexivity.
Qed.

(** The text gives no paragraph exactly when it is whitespace throughout. *)
Lemma paragraphs_nil_iff (t : pystr) :
  paragraphs t = [] <-> forallb isspace t = true.
Proof.
  unfold paragraphs. split.
  - intros Hnil. destruct (forallb isspace t) eqn:Hall; [reflexivity |].
    apply forallb_false in Hall. destruct Hall as (c & Hin & Hc).
    destruct (split_keeps_nonspace _ _ Hin Hc) as (p & Hp & Hcp).
    assert (Hsurv : In p (filter (fun p => truthy (strip p))
                                 (split blank_line t))).
    { apply filter_In. split; [exact Hp |].
      apply strip_truthy with (c := c); assumption. }
    apply (in_map strip) in Hsurv. rewrite Hnil in Hsurv. contradiction.
  - intros Hall. rewrite forallb_forall in Hall.
    assert (Hnone : filter (fun p => truthy (strip p)) (split blank_line t)
                    = []).
    { destruct (filter _ _) as [|p ps] eqn:Hf; [reflexivity |].
      assert (Hp : In p (filter (fun p => truthy (strip p))
                                (split blank_line t)))
        by (rewrite Hf; left; reflexivity).
      apply filter_In in Hp. destruct Hp as [Hp Ht].
      destruct (strip p) as [|c r] eqn:Hs; [discriminate |].
      pose proof (strip_head _ Hs) as Hc.
      assert (Hin : In c t).
      { apply split_subset with (p := p); [exact Hp |].
        apply strip_subset. rewrite Hs. left. reflexivity. }
      rewrite (Hall c Hin) in Hc. discriminate. }
    rewrite Hnone. reflexivity.
Qed.

(** X16.  The paragraphs built from a text are never empty and have no
    whitespace at either end; there is none at all exactly when the text is
    whitespace throughout. *)
Theorem paragraphs_shape (t : pystr) :
  Forall (fun p => p <> [] /\ trimmed p) (paragraphs t)
  /\ (paragraphs t = [] <-> forallb isspace t = true).
Proof.
  split; [| apply paragraphs_nil_iff].
  unfold paragraphs. apply Forall_forall. intros p Hp.
  apply in_map_iff in Hp. destruct Hp as (q & <- & Hq).
  apply filter_In in Hq. destruct Hq as [_ Hq].
  split; [destruct (strip q); [discriminate | discriminate] |].
  apply strip_trimmed.
Qed.

(** X17.  Splitting a text at its blank lines loses nothing but the
    separators: joining the pieces with ["\n\n"] gives the text back. *)
Theorem split_blank_line_join (t : pystr) :
  join_with blank_line (split blank_line t) = t.
Proof. apply join_split. discriminate. Qed.

Lemma html_of_paragraphs_nonempty (t : pystr) :
  forallb isspace t = false -> html_of_paragraphs (paragraphs t) <> [].
Proof.
  intros Hall.
  destruct (paragraphs t) as [|p ps] eqn:Hp.
  - apply paragraphs_nil_iff in Hp. congruence.
  - discriminate.
Qed.

End ParagraphFacts.

Section ArticleStrings.

Lemma stripped_not_whitespace (s : pystr) :
  strip s <> [] -> forallb isspace (strip s) = false.
Proof.
  intros Hne. destruct (strip_has_nonspace _ Hne) as (c & Hin & Hc).
  destruct (forallb isspace (strip s)) eqn:Hall; [| reflexivity].
  rewrite forallb_forall in Hall. rewrite (Hall c Hin) in Hc. discriminate.
Qed.

(** X18.  In every article result the [html] is empty exactly when the
    [text] is: a result with text always carries markup for it, and there
    is no markup without text. *)
Theorem html_empty_iff_text_empty (w : article_world) (req : article_request)
        (t h : pystr) :
  str_field "text" (fetch_article w req) = Some t ->
  str_field "html" (fetch_article w req) = Some h ->
  (t = [] <-> h = []).
Proof.
  destruct (url_of req) as [|c u] eqn:Hu.
  { rewrite fetch_article_400 by assumption. discriminate. }
  assert (Hne : url_of req <> []) by (rewrite Hu; discriminate).
  rewrite fetch_article_ok by assumption. rewrite Hu.
  set (url := c :: u).
  unfold str_field, body_field, article_json.
  cbn [field String.eqb Ascii.eqb Bool.eqb].
  rewrite final_text, final_html. intros [= <-] [= <-].
  destruct (after_fallback_text_stripped w url) as (s & Hs).
  split.
  - intros Ht. rewrite Ht. cbn [truthy andb].
    apply after_fallback_html_has_text, Ht.
  - intros Hh.
    destruct (text (vars (after_fallback w url))) as [|x xs] eqn:Ht;
      [reflexivity |].
    exfalso. cbn [truthy andb] in Hh.
    destruct (html_content (vars (after_fallback w url))) as [|y ys];
      cbn [truthy negb] in Hh; [| discriminate].
    revert Hh. apply html_of_paragraphs_nonempty.
    rewrite Hs. apply stripped_not_whitespace. rewrite <- Hs. discriminate.
Qed.

Lemma html_empty_iff_text_empty_witness :
  lit "a <b> & c" = [] <-> lit "<p>a <b> & c</p>" = [].
Proof.
  apply (@html_empty_iff_text_empty world_markup_line request_a);
    reflexivity.
Defined.

(** X19.  A text without a blank line, when no HTML came with it, is put
    between one pair of paragraph tags as it is: no code point of it is
    escaped or dropped, markup included. *)
Theorem single_paragraph_verbatim (w : article_world) (req : article_request) :
  url_of req <> [] ->
  text (vars (after_fallback w (url_of req))) <> [] ->
  html_content (vars (after_fallback w (url_of req))) = [] ->
  occurs blank_line (text (vars (after_fallback w (url_of req)))) = false ->
  str_field "html" (fetch_article w req)
  = Some (lit "<p>" ++ text (vars (after_fallback w (url_of req))) ++ lit "</p>").
Proof.
  intros Hne Ht Hh Hocc. rewrite fetch_article_ok by assumption.
  set (url := url_of req) in *.
  unfold str_field, body_field, article_json.
  cbn [field String.eqb Ascii.eqb Bool.eqb].
  rewrite final_html, Hh.
  destruct (after_fallback_text_stripped w url) as (s & Hs).
  destruct (text (vars (after_fallback w url))) as [|x xs] eqn:Htx;
    [contradiction |].
  cbn [truthy negb andb]. f_equal.
  unfold paragraphs, split. rewrite (split_from_no_match _ _ Hocc).
  cbn [rev app filter].
  assert (Hfix : strip (x :: xs) = x :: xs).
  { rewrite Hs. apply strip_idempotent. }
  rewrite Hfix. cbn [truthy map html_of_paragraphs is_nil join concat].
  rewrite Hfix, app_nil_r. reflexivity.
Qed.

Lemma single_paragraph_verbatim_witness :
  str_field "html" (fetch_article world_markup_line request_a)
  = Some (lit "<p>" ++ lit "a <b> & c" ++ lit "</p>").
Proof.
  apply (single_paragraph_verbatim world_markup_line request_a);
    [discriminate | discriminate | reflexivity | reflexivity].
Defined.

(** X20.  The [text] and the [source_url] of an article result have no
    whitespace at either end, and the [source_url] is never empty. *)
Theorem result_strings_stripped (w : article_world) (req : article_request)
        (t u : pystr) :
  str_field "text" (fetch_article w req) = Some t ->
  str_field "source_url" (fetch_article w req) = Some u ->
  trimmed t /\ strip t = t /\ trimmed u /\ strip u = u /\ u <> [].
Proof.
  destruct (url_of req) as [|c r] eqn:Hu.
  { rewrite fetch_article_400 by assumption. discriminate. }
  assert (Hne : url_of req <> []) by (rewrite Hu; discriminate).
  rewrite fetch_article_ok by assumption.
  unfold str_field, body_field, article_json.
  cbn [field String.eqb Ascii.eqb Bool.eqb].
  rewrite final_text. intros [= <-] [= <-].
  destruct (after_fallback_text_stripped w (url_of req)) as (s & ->).
  repeat split; try apply strip_trimmed; try apply strip_idempotent;
    exact Hne.
Qed.

Lemma result_strings_stripped_witness :
  trimmed (lit "Body text") /\ strip (lit "Body text") = lit "Body text"
  /\ trimmed (lit "http://a") /\ strip (lit "http://a") = lit "http://a"
  /\ lit "http://a" <> [].
Proof.
  apply (@result_strings_stripped world_absolute_image request_a_padded);
    reflexivity.
Defined.

Lemma fetch_article_same_url (w : article_world) (req req' : article_request) :
  url_of req' = url_of req -> fetch_article w req' = fetch_article w req.
Proof. intros H. unfold fetch_article. rewrite H. reflexivity. Qed.

(** X21.  Asking again with the [source_url] of a result as the url
    parameter is the same request: against the same answers of the
    libraries it gets the same response. *)
Theorem source_url_round_trip (w : article_world) (req : article_request)
        (u : pystr) :
  str_field "source_url" (fetch_article w req) = Some u ->
  url_of (mkArticleRequest (Some u)) = u
  /\ fetch_article w (mkArticleRequest (Some u)) = fetch_article w req.
Proof.
  intros Hsrc.
  assert (Hu : u = url_of req).
  { destruct (url_of req) as [|c r] eqn:Hurl.
    - rewrite fetch_article_400 in Hsrc by assumption. discriminate.
    - rewrite fetch_article_ok in Hsrc by (rewrite Hurl; discriminate).
      cbn in Hsrc. rewrite Hurl in Hsrc. congruence. }
  assert (Hfix : url_of (mkArticleRequest (Some u)) = u).
  { unfold url_of at 1. cbn [ar_url or_default]. rewrite Hu.
    unfold url_of. apply strip_idempotent. }
  split; [exact Hfix |].
  apply fetch_article_same_url. rewrite Hfix. exact Hu.
Qed.

Lemma source_url_round_trip_witness :
  url_of (mkArticleRequest (Some (lit "http://a"))) = lit "http://a"
  /\ fetch_article world_short_primary (mkArticleRequest (Some (lit "http://a")))
     = fetch_article world_short_primary request_a_padded.
Proof.
  apply (@source_url_round_trip world_short_primary request_a_padded).
  reflexivity.
Defined.

End ArticleStrings.

Section LimitEdges.

Local Open Scope Z_scope.

(** The code points that are whitespace. *)
Lemma isspace_cases (c : N) :
  isspace c = true ->
  In c [9; 10; 11; 12; 13; 28; 29; 30; 31; 32; 133; 160; 5760;
        8192; 8193; 8194; 8195; 8196; 8197; 8198; 8199; 8200; 8201; 8202;
        8232; 8233; 8239; 8287; 12288]%N.
Proof.
  unfold isspace.
  rewrite !orb_true_iff, !andb_true_iff, !N.leb_le, !N.eqb_eq.
  intros H.
  assert (Hc : (c = 9 \/ c = 10 \/ c = 11 \/ c = 12 \/ c = 13 \/ c = 28
                \/ c = 29 \/ c = 30 \/ c = 31 \/ c = 32 \/ c = 133
                \/ c = 160 \/ c = 5760 \/ c = 8192 \/ c = 8193 \/ c = 8194
                \/ c = 8195 \/ c = 8196 \/ c = 8197 \/ c = 8198 \/ c = 8199
                \/ c = 8200 \/ c = 8201 \/ c = 8202 \/ c = 8232 \/ c = 8233
                \/ c = 8239 \/ c = 8287 \/ c = 12288)%N) by lia.
  cbn [In]. intuition auto.
Qed.

(** Whitespace is neither a sign nor a digit. *)
Lemma space_not_literal (c : N) :
  isspace c = true ->
  (c =? 45)%N = false /\ (c =? 43)%N = false /\ digit_value c = None.
Proof.
  intros H. apply isspace_cases in H. cbn [In] in H.
  repeat (destruct H as [<- | H]; [repeat split |]).
  contradiction.
Qed.

Lemma int_lstrip_subset (s : pystr) (c : N) : In c (int_lstrip s) -> In c s.
Proof.
  induction s as [|x s IH]; [auto |].
  cbn [int_lstrip]. destruct (int_space x); [| auto].
  intros H. right. apply IH, H.
Qed.

Lemma int_strip_subset (s : pystr) (c : N) : In c (int_strip s) -> In c s.
Proof.
  unfold int_strip. intros H.
  apply int_lstrip_subset, in_rev, int_lstrip_subset, in_rev.
  exact H.
Qed.

(** [int()] raises on a string that is whitespace throughout. *)
Lemma py_int_whitespace (s : pystr) : forallb isspace s = true -> py_int s = None.
Proof.
  intros Hall. rewrite forallb_forall in Hall. unfold py_int.
  destruct (int_strip s) as [|c r] eqn:Hs; [reflexivity |].
  assert (Hc : isspace c = true).
  { apply Hall, int_strip_subset. rewrite Hs. left. reflexivity. }
  destruct (space_not_literal _ Hc) as (H45 & H43 & Hd).
  rewrite H45, H43. cbn [orb].
  destruct (max_str_digits <? digit_count (c :: r))%N; [reflexivity |].
  cbn [parse_digits]. rewrite Hd, andb_false_r. reflexivity.
Qed.

(** X22.  A limit parameter that is given but empty, or whitespace only, is
    not taken as absent: the conversion raises [ValueError] and no response
    is built, whatever the feed. *)
Theorem news_feed_blank_limit_unhandled (w : feed_world) (req : feed_request)
        (s : pystr) :
  fr_limit req = Some s -> forallb isspace s = true ->
  news_feed w req = Unhandled ValueError.
Proof.
  intros Hs Hall. unfold news_feed, limit.
  rewrite Hs, (py_int_whitespace _ Hall). reflexivity.
Qed.

Lemma news_feed_blank_limit_unhandled_witness :
  news_feed feed_of_3 (mkFeedRequest None (Some [])) = Unhandled ValueError
  /\ news_feed feed_of_3 (mkFeedRequest None (Some (lit "  ")))
     = Unhandled ValueError.
Proof.
  split.
  - apply (@news_feed_blank_limit_unhandled feed_of_3
             (mkFeedRequest None (Some [])) []); reflexivity.
  - apply (@news_feed_blank_limit_unhandled feed_of_3
             (mkFeedRequest None (Some (lit "  "))) (lit "  ")); reflexivity.
Defined.

(** X23.  With a negative limit [n] the handler returns the items of all
    entries but the last [-n] (none when the feed has no more than [-n]):
    the limit then removes from the end instead of bounding the number. *)
Theorem news_feed_negative_limit_drops_tail (w : feed_world)
        (req : feed_request) (s : pystr) (n : Z) (l : list json) :
  fr_limit req = Some s -> py_int s = Some n -> n < 0 ->
  body_field "items" (news_feed w req) = Some (JArr l) ->
  exists p,
    feedparser_parse w (feed_url w req) = inr p
    /\ l = map item_of (firstn (length (entries p) - Z.to_nat (- n)) (entries p))
    /\ length l = (length (entries p) - Z.to_nat (- n))%nat.
Proof.
  intros Hs Hn Hneg. unfold news_feed, limit. rewrite Hs, Hn.
  cbn [option_map].
  destruct (feedparser_parse w (feed_url w req)) as [e|p]; [discriminate |].
  destruct (bozo p && is_nil (entries p))%bool; [discriminate |].
  cbn. intros [= <-]. exists p. split; [reflexivity |].
  unfold items. replace (Z.min n 50) with n by lia.
  rewrite slice_to_negative by assumption.
  split; [reflexivity |].
  rewrite length_map, length_firstn. lia.
Qed.

Lemma news_feed_negative_limit_drops_tail_witness :
  exists p,
    feedparser_parse feed_of_3
      (feed_url feed_of_3 (mkFeedRequest None (Some (lit "-2")))) = inr p
    /\ [item_of bare_entry]
       = map item_of (firstn (length (entries p) - Z.to_nat (- (-2))) (entries p))
    /\ length [item_of bare_entry]
       = (length (entries p) - Z.to_nat (- (-2)))%nat.
Proof.
  apply (@news_feed_negative_limit_drops_tail feed_of_3
           (mkFeedRequest None (Some (lit "-2"))) (lit "-2") (-2)
           [item_of bare_entry]);
    [reflexivity | reflexivity | lia | reflexivity].
Defined.

End LimitEdges.
